(** * The [build] command of preset-umi

    A shallow embedding of
    [packages/preset-umi/src/commands/build.ts]: the command body [fn]
    that drives plugin hook dispatches, composes the bundler options,
    runs the bundler, reports file sizes and emits the HTML documents. *)

From Stdlib Require Import NArith ZArith Ascii String List Lia Bool.
From stdpp Require Import base option strings gmap.
Import ListNotations.

Local Open Scope string_scope.
Local Open Scope list_scope.

(** ** Semantic versions *)

(** Modelled from the spec: [semver.gte] is imported from [@umijs/utils]
    and is not part of [build.ts]; the spec calls it a semantic-version
    comparison (inclusive at the threshold).  The model follows the
    semver 2.0.0 grammar [MAJOR.MINOR.PATCH(-PRERELEASE)?(+BUILD)?] with an
    optional leading [v], and its precedence rules.  The trimming of
    surrounding white space and the library's length limits are left out. *)
Module semver.

(** A pre-release identifier is numeric or alphanumeric. *)
Inductive PreId : Type :=
| PNum (n : N)
| PStr (s : string).

Record SemVer : Type := mkSemVer {
  major : N;
  minor : N;
  patch : N;
  prerelease : list PreId
}.

Definition is_digit (c : ascii) : bool :=
  let n := nat_of_ascii c in (48 <=? n)%nat && (n <=? 57)%nat.

Definition is_letter (c : ascii) : bool :=
  let n := nat_of_ascii c in
  ((65 <=? n)%nat && (n <=? 90)%nat) || ((97 <=? n)%nat && (n <=? 122)%nat).

(** [[0-9A-Za-z-]] *)
Definition is_ident_char (c : ascii) : bool :=
  is_digit c || is_letter c || (nat_of_ascii c =? 45)%nat.

Fixpoint all_chars (p : ascii -> bool) (s : string) : bool :=
  match s with
  | EmptyString => true
  | String c r => p c && all_chars p r
  end.

Fixpoint digits_value (acc : N) (s : string) : N :=
  match s with
  | EmptyString => acc
  | String c r => digits_value (10 * acc + (N.of_nat (nat_of_ascii c) - 48)) r
  end.

(** [0|[1-9]\d*] *)
Definition numeric_identifier (s : string) : option N :=
  match s with
  | EmptyString => None
  | String c r =>
      if all_chars is_digit s then
        if (nat_of_ascii c =? 48)%nat then
          match r with EmptyString => Some 0%N | _ => None end
        else Some (digits_value 0 s)
      else None
  end.

Definition prerelease_identifier (s : string) : option PreId :=
  match s with
  | EmptyString => None
  | _ =>
      if all_chars is_digit s then PNum <$> numeric_identifier s
      else if all_chars is_ident_char s then Some (PStr s)
      else None
  end.

Definition build_identifier (s : string) : bool :=
  match s with
  | EmptyString => false
  | _ => all_chars is_ident_char s
  end.

(** Split at the first occurrence of [c]. *)
Fixpoint cut_at (c : ascii) (s : string) : string * option string :=
  match s with
  | EmptyString => (EmptyString, None)
  | String d r =>
      if Ascii.eqb d c then (EmptyString, Some r)
      else let '(a, b) := cut_at c r in (String d a, b)
  end.

(** Split at every occurrence of [c]. *)
Fixpoint split_on (c : ascii) (s : string) : list string :=
  match s with
  | EmptyString => [EmptyString]
  | String d r =>
      if Ascii.eqb d c then EmptyString :: split_on c r
      else match split_on c r with
           | [] => [String d EmptyString]
           | h :: t => String d h :: t
           end
  end.

Fixpoint traverse {A B} (f : A -> option B) (l : list A) : option (list B) :=
  match l with
  | [] => Some []
  | x :: r =>
      match f x, traverse f r with
      | Some y, Some ys => Some (y :: ys)
      | _, _ => None
      end
  end.

Definition strip_v (s : string) : string :=
  match s with
  | String "v" r => r
  | _ => s
  end.

(** [None] is the [TypeError('Invalid Version')] of the constructor. *)
Definition parse (version : string) : option SemVer :=
  let '(rest, build) := cut_at "+" (strip_v version) in
  let build_ok :=
    match build with
    | None => true
    | Some b => forallb build_identifier (split_on "." b)
    end in
  let '(core, pre) := cut_at "-" rest in
  let pre_ids :=
    match pre with
    | None => Some []
    | Some p => traverse prerelease_identifier (split_on "." p)
    end in
  match traverse numeric_identifier (split_on "." core), pre_ids with
  | Some [ma; mi; pa], Some ids =>
      if build_ok then Some (mkSemVer ma mi pa ids) else None
  | _, _ => None
  end.

Definition then_cmp (c d : comparison) : comparison :=
  match c with Eq => d | _ => c end.

Definition compareMain (a b : SemVer) : comparison :=
  then_cmp (major a ?= major b)%N
    (then_cmp (minor a ?= minor b)%N (patch a ?= patch b)%N).

Definition compareIdentifiers (a b : PreId) : comparison :=
  match a, b with
  | PNum x, PNum y => (x ?= y)%N
  | PNum _, PStr _ => Lt
  | PStr _, PNum _ => Gt
  | PStr x, PStr y => String.compare x y
  end.

Fixpoint compare_ids (a b : list PreId) : comparison :=
  match a, b with
  | [], [] => Eq
  | _ :: _, [] => Gt
  | [], _ :: _ => Lt
  | x :: a', y :: b' => then_cmp (compareIdentifiers x y) (compare_ids a' b')
  end.

(** A version with a pre-release tag precedes the same version without. *)
Definition comparePre (a b : SemVer) : comparison :=
  match prerelease a, prerelease b with
  | _ :: _, [] => Lt
  | [], _ :: _ => Gt
  | [], [] => Eq
  | pa, pb => compare_ids pa pb
  end.

Definition compare (a b : SemVer) : comparison :=
  then_cmp (compareMain a b) (comparePre a b).

Definition ge (a b : SemVer) : bool :=
  match compare a b with Lt => false | _ => true end.

(** [semver.gte(a, b)] on strings; [None] when either side is invalid. *)
Definition gte (a b : string) : option bool :=
  match parse a, parse b with
  | Some x, Some y => Some (ge x y)
  | _, _ => None
  end.

End semver.

(** ** JavaScript values read by the command *)

(** A flag as it arrives from the command line or the configuration. *)
Inductive JsVal : Type :=
| VUndefined
| VBool (b : bool)
| VStr (s : string)
| VNum (n : Z).

Definition truthy (v : JsVal) : bool :=
  match v with
  | VUndefined => false
  | VBool b => b
  | VStr s => negb (s =? "")%string
  | VNum n => negb (n =? 0)%Z
  end.

(** [a || b] *)
Definition js_or (a b : JsVal) : JsVal := if truthy a then a else b.

(** An object-valued slot that may be [undefined] or [null]. *)
Inductive Js (A : Type) : Type :=
| undefined
| null
| val (a : A).
Arguments undefined {A}.
Arguments null {A}.
Arguments val {A} a.

(** [x || null] for an object or array [x] (always truthy when present). *)
Definition or_null {A} (x : Js A) : Js A :=
  match x with
  | val a => val a
  | _ => null
  end.

(** [o.key || d] for a string-valued key [s] of an object: [None] is the
    key absent, [Some undefined] and [Some null] the key present without a
    value; these and [''] are falsy. *)
Definition str_or (s : option (Js string)) (d : string) : string :=
  match s with
  | Some (val x) => if (x =? "")%string then d else x
  | _ => d
  end.

(** ** Failures, and computations with state and failure *)

Inductive Failure : Type :=
| TypeError (msg : string)
| HandlerFailure (msg : string)
| BackendBuildFailure (msg : string)
| IOFailure (msg : string).

Inductive Result (A : Type) : Type :=
| Ok (a : A)
| Err (e : Failure).
Arguments Ok {A} a.
Arguments Err {A} e.

(** A computation over a store [W]; a failure keeps the store reached. *)
Definition St (W A : Type) : Type := W -> Result A * W.

Definition ret {W A} (a : A) : St W A := fun w => (Ok a, w).

Definition throw {W A} (e : Failure) : St W A := fun w => (Err e, w).

Definition bind {W A B} (m : St W A) (k : A -> St W B) : St W B :=
  fun w =>
    match m w with
    | (Ok a, w') => k a w'
    | (Err e, w') => (Err e, w')
    end.

Declare Scope st_scope.
Delimit Scope st_scope with st.
Notation "'do' x <- m 'in' k" := (bind m (fun x => k))
  (at level 10, x name, m at level 100, k at level 200) : st_scope.
Notation "'do' ' p <- m 'in' k" := (bind m (fun x => let 'p := x in k))
  (at level 10, p pattern, m at level 100, k at level 200) : st_scope.
Notation "m >> k" := (bind m (fun _ => k))
  (at level 95, right associativity) : st_scope.
Local Open Scope st_scope.

(** ** The data of the command *)

Inductive Runtime : Type := automatic | classic.

(** One emitted document, [{ path, content }] (build.ts:176). *)
Record HtmlFile : Type := mkHtmlFile {
  html_path : string;
  html_content : string
}.

Section Build.

(** [S] is the store of everything outside [build.ts] (plugins, bundler,
    file system); [Any] stands for the payloads the command only passes
    along (TypeScript [any]). *)
Context {S Any : Type}.

(** External code runs over [S] and may fail. *)
Definition Ext (A : Type) : Type := St S A.

(** The keys of [api.config] that [build.ts] reads.  [vite], [mako], [mpa]
    and [esm] are only tested for truthiness; [config_outputPath] is
    [None] when the object has no [outputPath] key, and [Some undefined]
    or [Some null] when it has the key without a value, which the spread
    of line 111 copies like any other. *)
Record Config : Type := mkConfig {
  config_vite : bool;
  config_mako : bool;
  config_mpa : bool;
  config_esm : bool;
  config_publicPath : Any;
  config_outputPath : option (Js string)
}.

(** An entry of [styles] or [scripts]: [{ src }] built from the assets
    map, or whatever [getMarkupArgs] supplied. *)
Inductive MarkupItem : Type :=
| Src (src : string)
| External (v : Any).

Record MarkupArgs : Type := mkMarkupArgs {
  styles : list MarkupItem;
  scripts : list MarkupItem;
  esmScript : JsVal;
  path : option string;
  markup_others : Any
}.

(** The result of [getBabelOpts] (build.ts:64-70). *)
Record BabelOpts : Type := mkBabelOpts {
  babelPreset : Any;
  beforeBabelPlugins : Any;
  beforeBabelPresets : Any;
  extraBabelPlugins : Any;
  extraBabelPresets : Any
}.

(** A config-mutation closure handed to the bundler: [(memo, args) => ...];
    [undefined] when the closure returns nothing. *)
Definition Closure : Type := Any -> Any -> Ext (Js Any).

(** The object literal [opts] (build.ts:105-131).  The four fields of the
    conditional spread are [None] when the literal does not have them. *)
Record Opts : Type := mkOpts {
  opts_react_runtime : Runtime;
  opts_config : Config;
  opts_cwd : string;
  opts_entry : gmap string string;
  opts_modifyViteConfig : option Closure;
  opts_babelPreset : option Any;
  opts_chainWebpack : option Closure;
  opts_modifyWebpackConfig : option Closure;
  opts_beforeBabelPlugins : Any;
  opts_beforeBabelPresets : Any;
  opts_extraBabelPlugins : Any;
  opts_extraBabelPresets : Any;
  opts_onBuildComplete : Any -> Ext unit;
  opts_clean : bool;
  opts_htmlFiles : list HtmlFile
}.

(** What [build.ts] uses of the bundler object: [bundler.build(opts)]. *)
Record Bundler : Type := mkBundler {
  build : Opts -> Ext Any
}.

(** Arguments of the dispatches.  The arguments of [modifyUniBundlerOpts],
    [{ bundler }], are carried as the one value they hold. *)
Record OnCheckPkgJSON : Type := mkOnCheckPkgJSON {
  origin : Js Any;
  current : Any
}.

Record IOnGenerateFiles : Type := mkIOnGenerateFiles {
  files : Js (list Any);
  isFirstTime : bool
}.

Record CompilerArgs : Type := mkCompilerArgs {
  ca_compiler : Any;
  ca_opts : Opts
}.

Record UniBundlerArgs : Type := mkUniBundlerArgs {
  ub_bundler : Any;
  ub_opts : Opts
}.

Record ExportHTMLArgs : Type := mkExportHTMLArgs {
  markupArgs : MarkupArgs;
  ea_getMarkup : MarkupArgs -> Ext string
}.

(** *** The hook registry *)

(** Modelled from the spec: the registry and [api.applyPlugins] belong to
    [@umijs/core] and are not part of [build.ts].  Per hook key the
    registry holds the handlers in registration order; a MODIFY handler
    maps the accumulator and the call arguments to the next accumulator,
    an EVENT handler only receives the arguments. *)
Definition ModifyHandler (T A : Type) : Type := T -> A -> Ext T.
Definition EventHandler (A : Type) : Type := A -> Ext unit.

Record Hooks : Type := mkHooks {
  h_onCheckPkgJSON : list (EventHandler OnCheckPkgJSON);
  h_onGenerateFiles : list (EventHandler IOnGenerateFiles);
  h_chainWebpack : list (ModifyHandler Any Any);
  h_modifyWebpackConfig : list (ModifyHandler Any Any);
  h_modifyViteConfig : list (ModifyHandler Any Any);
  h_modifyEntry : list (ModifyHandler (gmap string string) unit);
  h_onBuildComplete : list (EventHandler Any);
  h_onBeforeCompiler : list (EventHandler CompilerArgs);
  h_modifyUniBundlerOpts : list (ModifyHandler Opts Any);
  h_modifyUniBundler : list (ModifyHandler (Js Bundler) UniBundlerArgs);
  h_modifyExportHTMLFiles : list (ModifyHandler (list HtmlFile) ExportHTMLArgs);
  h_onBuildHtmlComplete : list (EventHandler Opts)
}.

(** Modelled from the spec: MODIFY dispatch of section 4.2,
    [acc := initialValue; for each handler in order,
     acc := await handler(acc, args)]; a failing handler aborts it. *)
Fixpoint applyModify {T A} (hs : list (ModifyHandler T A))
         (initialValue : T) (args : A) : Ext T :=
  match hs with
  | [] => ret initialValue
  | h :: hs' => do acc <- h initialValue args in applyModify hs' acc args
  end.

(** Modelled from the spec: EVENT dispatch of section 4.2,
    [for each handler in order, await handler(args)]. *)
Fixpoint applyEvent {A} (hs : list (EventHandler A)) (args : A) : Ext unit :=
  match hs with
  | [] => ret tt
  | h :: hs' => h args >> applyEvent hs' args
  end.

(** *** The plugin API and the imported helpers *)

Record Api : Type := mkApi {
  api_hooks : Hooks;
  api_config : Config;
  api_userConfig_outputPath : option (Js string);
  api_cwd : string;
  api_absTmpPath : string;
  api_absOutputPath : string;
  api_umi_version : string;
  api_pkg : Any;
  api_react_version : option string;
  api_bundler : Any;
  api_args_vite : JsVal
}.

(** The imports of [build.ts] (lines 1-18).  [rimraf_sync], [mkdirpSync]
    and [writeFileSync] are the file-system calls; [join], [resolve] and
    [dirname] are Node's [path] functions. *)
Record Imports : Type := mkImports {
  rimraf_sync : string -> Ext unit;
  getBabelOpts : Api -> Ext BabelOpts;
  printMemoryUsage : Ext unit;
  measureFileSizesBeforeBuild : string -> Ext Any;
  printFileSizesAfterBuild : Any -> Any -> string -> Ext unit;
  getAssetsMap : Any -> Any -> Ext (gmap string (list string));
  getMarkupArgs : Api -> Ext MarkupArgs;
  getMarkup : MarkupArgs -> Ext string;
  mkdirpSync : string -> Ext unit;
  writeFileSync : string -> string -> Ext unit;
  join : string -> string -> string;
  resolve : string -> string -> string;
  dirname : string -> string;
  DEFAULT_OUTPUT_PATH : string
}.

(** *** The journal of the command's own calls *)

Inductive ArgsView : Type :=
| NoArgs
| ArgsCheckPkg (a : OnCheckPkgJSON)
| ArgsGenerate (a : IOnGenerateFiles)
| ArgsCompiler (a : CompilerArgs)
| ArgsBundlerOpts (bundler : Any)
| ArgsUniBundler (a : UniBundlerArgs)
| ArgsExportHTML (a : MarkupArgs)
| ArgsHtmlComplete (a : Opts).

(** One entry per call that the statements of [fn] make, entered when the
    call is issued, in program order; [EThrown e] is entered when a call
    throws [e].  The closures [chainWebpack], [modifyWebpackConfig],
    [modifyViteConfig] and [onBuildComplete] are handed to the bundler:
    their dispatches run inside [bundler.build], if and as often as the
    bundler calls them, and are part of that call, not entries of their
    own. *)
Inductive Effect : Type :=
| ELoggerInfo (msg : string)
| ERimraf (dir : string)
| EApplyPlugins (key : string) (args : ArgsView)
| EGetBabelOpts
| EBundlerBuild (opts : Opts)
| EMeasureFileSizes (dir : string)
| EConsoleLog
| EPrintFileSizes (webpackStats previousSizeMap : Any) (buildFolder : string)
| EGetAssetsMap
| EGetMarkupArgs
| EGetMarkup (args : MarkupArgs)
| EMkdirp (dir : string)
| EWriteFile (file content : string)
| ELoggerEvent (msg : string)
| EThrown (e : Failure).

Record World : Type := mkWorld {
  ext : S;
  log : list Effect
}.

(** The command itself runs over the external store and the journal. *)
Definition P (A : Type) : Type := St World A.

Definition emit (e : Effect) : P unit :=
  fun w => (Ok tt, {| ext := ext w; log := log w ++ [e] |}).

(** A [throw] in the body of [fn]. *)
Definition fail {A} (e : Failure) : P A :=
  fun w => (Err e, {| ext := ext w; log := log w ++ [EThrown e] |}).

Definition lift {A} (m : Ext A) : P A :=
  fun w =>
    match m (ext w) with
    | (Ok a, s) => (Ok a, {| ext := s; log := log w |})
    | (Err e, s) => (Err e, {| ext := s; log := log w ++ [EThrown e] |})
    end.

(** Enter [e], then run the external call. *)
Definition call {A} (e : Effect) (m : Ext A) : P A := emit e >> lift m.

Definition of_result {A} (r : Result A) : P A :=
  match r with
  | Ok a => ret a
  | Err e => fail e
  end.

Definition init (s : S) : World := {| ext := s; log := [] |}.

(** ** The command *)

Variable imp : Imports.

(** [generate] (build.ts:49-57). *)
Definition generate (api : Api) (opts : IOnGenerateFiles) : P unit :=
  let args := {| files := or_null (files opts);
                 isFirstTime := isFirstTime opts |} in
  call (EApplyPlugins "onGenerateFiles" (ArgsGenerate args))
       (applyEvent (h_onGenerateFiles (api_hooks api)) args).

(** [chainWebpack] (build.ts:71-78): the dispatch is awaited and the
    arrow function ends without a [return]. *)
Definition chainWebpack (api : Api) : Closure :=
  fun memo args =>
    do _ <- applyModify (h_chainWebpack (api_hooks api)) memo args in
    ret undefined.

(** [modifyWebpackConfig] (build.ts:79-85). *)
Definition modifyWebpackConfig (api : Api) : Closure :=
  fun memo args =>
    do r <- applyModify (h_modifyWebpackConfig (api_hooks api)) memo args in
    ret (val r).

(** [modifyViteConfig] (build.ts:86-92). *)
Definition modifyViteConfig (api : Api) : Closure :=
  fun memo args =>
    do r <- applyModify (h_modifyViteConfig (api_hooks api)) memo args in
    ret (val r).

(** [onBuildComplete] of the literal (build.ts:122-128). *)
Definition onBuildComplete (api : Api) (opts : Any) : Ext unit :=
  printMemoryUsage imp >>
  applyEvent (h_onBuildComplete (api_hooks api)) opts.

(** [shouldUseAutomaticRuntime] (build.ts:99-104), as the truth value the
    conditional of line 107 sees: [version && semver.gte(version, '17.0.0')].
    An absent or empty version short-circuits; an invalid one makes
    [semver.gte] throw. *)
Definition shouldUseAutomaticRuntime (api : Api) : Result bool :=
  match api_react_version api with
  | None => Ok false
  | Some version =>
      if (version =? "")%string then Ok false
      else match semver.gte version "17.0.0" with
           | Some b => Ok b
           | None => Err (TypeError ("Invalid Version: " ++ version))
           end
  end.

(** [{ outputPath: api.userConfig.outputPath || 'dist', ...api.config }]
    (build.ts:109-112): an [outputPath] key of [api.config], whatever its
    value, replaces the one written before the spread. *)
Definition compose_config (api : Api) : Config :=
  let c := api_config api in
  {| config_vite := config_vite c;
     config_mako := config_mako c;
     config_mpa := config_mpa c;
     config_esm := config_esm c;
     config_publicPath := config_publicPath c;
     config_outputPath :=
       match config_outputPath c with
       | Some p => Some p
       | None => Some (val (str_or (api_userConfig_outputPath api) "dist"))
       end |}.

(** The literal [opts] (build.ts:105-131). *)
Definition compose_opts (api : Api) (useAutomaticRuntime : bool)
           (babel : BabelOpts) (entry : gmap string string) : Opts :=
  let vite := config_vite (api_config api) in
  {| opts_react_runtime := if useAutomaticRuntime then automatic else classic;
     opts_config := compose_config api;
     opts_cwd := api_cwd api;
     opts_entry := entry;
     opts_modifyViteConfig := if vite then Some (modifyViteConfig api) else None;
     opts_babelPreset := if vite then None else Some (babelPreset babel);
     opts_chainWebpack := if vite then None else Some (chainWebpack api);
     opts_modifyWebpackConfig :=
       if vite then None else Some (modifyWebpackConfig api);
     opts_beforeBabelPlugins := beforeBabelPlugins babel;
     opts_beforeBabelPresets := beforeBabelPresets babel;
     opts_extraBabelPlugins := extraBabelPlugins babel;
     opts_extraBabelPresets := extraBabelPresets babel;
     opts_onBuildComplete := onBuildComplete api;
     opts_clean := true;
     opts_htmlFiles := [] |}.

(** Lines 34-37: the banner and the removal of the temporary directory. *)
Definition clear_tmp (api : Api) : P unit :=
  emit (ELoggerInfo ("Umi v" ++ api_umi_version api)) >>
  call (ERimraf (api_absTmpPath api)) (rimraf_sync imp (api_absTmpPath api)).

(** Stage 1, lines 40-46. *)
Definition check_pkg (api : Api) : P unit :=
  let args := {| origin := null; current := api_pkg api |} in
  call (EApplyPlugins "onCheckPkgJSON" (ArgsCheckPkg args))
       (applyEvent (h_onCheckPkgJSON (api_hooks api)) args).

(** Stage 2, lines 58-60. *)
Definition generate_files (api : Api) : P unit :=
  generate api {| files := undefined; isFirstTime := true |}.

(** Stage 3, lines 64-152: the options literal and its three dispatches.
    [modifyUniBundler] is dispatched without an initial value. *)
Definition compose_build_options (api : Api) : P (Opts * Js Bundler) :=
  do babel <- call EGetBabelOpts (getBabelOpts imp api) in
  do entry <- call (EApplyPlugins "modifyEntry" NoArgs)
                (applyModify (h_modifyEntry (api_hooks api))
                   {[ "umi" := join imp (api_absTmpPath api) "umi.ts" ]} tt) in
  do useAutomaticRuntime <- of_result (shouldUseAutomaticRuntime api) in
  let opts := compose_opts api useAutomaticRuntime babel entry in
  let cargs := {| ca_compiler := api_bundler api; ca_opts := opts |} in
  call (EApplyPlugins "onBeforeCompiler" (ArgsCompiler cargs))
       (applyEvent (h_onBeforeCompiler (api_hooks api)) cargs) >>
  do opts <- call (EApplyPlugins "modifyUniBundlerOpts"
                     (ArgsBundlerOpts (api_bundler api)))
               (applyModify (h_modifyUniBundlerOpts (api_hooks api))
                  opts (api_bundler api)) in
  let uargs := {| ub_bundler := api_bundler api; ub_opts := opts |} in
  do bundler <- call (EApplyPlugins "modifyUniBundler" (ArgsUniBundler uargs))
                  (applyModify (h_modifyUniBundler (api_hooks api))
                     undefined uargs) in
  ret (opts, bundler).

(** Stage 4, line 154: [await bundler.build(opts)]. *)
Definition execute_build (bundler : Js Bundler) (opts : Opts) : P Any :=
  match bundler with
  | val b => call (EBundlerBuild opts) (build b opts)
  | undefined =>
      fail (TypeError "Cannot read properties of undefined (reading 'build')")
  | null =>
      fail (TypeError "Cannot read properties of null (reading 'build')")
  end.

(** The message of line 165. *)
Definition file_sizes_heading : string := "File sizes after gzip:
".

(** Stage 5, lines 156-171. *)
Definition measure_sizes (api : Api) (opts : Opts) (stats : Any) : P unit :=
  if negb (config_vite (api_config api)) && negb (config_mako (api_config api))
  then
    let absOutputPath :=
      resolve imp (opts_cwd opts)
        (str_or (config_outputPath (opts_config opts))
                (DEFAULT_OUTPUT_PATH imp)) in
    do previousFileSizes <-
      call (EMeasureFileSizes absOutputPath)
           (measureFileSizesBeforeBuild imp absOutputPath) in
    emit EConsoleLog >>
    emit (ELoggerInfo file_sizes_heading) >>
    call (EPrintFileSizes stats previousFileSizes absOutputPath)
         (printFileSizesAfterBuild imp stats previousFileSizes absOutputPath)
  else ret tt.

(** [(assetsMap[key] || []).map((src) => ({ src }))] *)
Definition mapped (assetsMap : gmap string (list string)) (key : string)
  : list MarkupItem :=
  map Src (default [] (assetsMap !! key)).

(** [finalMarkUpArgs] (build.ts:188-201). *)
Definition finalMarkUpArgs (api : Api) (opts : Opts)
           (assetsMap : gmap string (list string)) (args : MarkupArgs)
  : MarkupArgs :=
  let vite := config_vite (api_config api) in
  {| styles := styles args ++ (if vite then [] else mapped assetsMap "umi.css");
     scripts := (if vite then [] else mapped assetsMap "umi.js") ++ scripts args;
     esmScript :=
       js_or (VBool (config_esm (opts_config opts))) (api_args_vite api);
     path := Some "/";
     markup_others := markup_others args |}.

(** The [forEach] of lines 215-221. *)
Fixpoint write_html_files (api : Api) (htmlFiles : list HtmlFile) : P unit :=
  match htmlFiles with
  | [] => ret tt
  | f :: rest =>
      let absPath := resolve imp (api_absOutputPath api) (html_path f) in
      call (EMkdirp (dirname imp absPath))
           (mkdirpSync imp (dirname imp absPath)) >>
      call (EWriteFile absPath (html_content f))
           (writeFileSync imp absPath (html_content f)) >>
      emit (ELoggerEvent ("Build " ++ html_path f)) >>
      write_html_files api rest
  end.

(** Lines 179-213: the assets map, the markup arguments, the default
    document and the [modifyExportHTMLFiles] dispatch. *)
Definition collect_html_files (api : Api) (opts : Opts) (stats : Any)
  : P (list HtmlFile) :=
  do assetsMap <-
    (if config_vite (api_config api) then ret ∅
     else call EGetAssetsMap
            (getAssetsMap imp stats (config_publicPath (api_config api)))) in
  do args <- call EGetMarkupArgs (getMarkupArgs imp api) in
  let final := finalMarkUpArgs api opts assetsMap args in
  do content <- call (EGetMarkup final) (getMarkup imp final) in
  call (EApplyPlugins "modifyExportHTMLFiles" (ArgsExportHTML final))
       (applyModify (h_modifyExportHTMLFiles (api_hooks api))
          [ {| html_path := "index.html"; html_content := content |} ]
          {| markupArgs := final; ea_getMarkup := getMarkup imp |}).

(** Stage 6, lines 176-222. *)
Definition generate_html (api : Api) (opts : Opts) (stats : Any)
  : P (list HtmlFile) :=
  if negb (config_mpa (api_config api)) then
    do htmlFiles <- collect_html_files api opts stats in
    write_html_files api htmlFiles >> ret htmlFiles
  else ret [].

(** [{ ...opts, htmlFiles }] (build.ts:227-230). *)
Definition with_htmlFiles (opts : Opts) (htmlFiles : list HtmlFile) : Opts :=
  {| opts_react_runtime := opts_react_runtime opts;
     opts_config := opts_config opts;
     opts_cwd := opts_cwd opts;
     opts_entry := opts_entry opts;
     opts_modifyViteConfig := opts_modifyViteConfig opts;
     opts_babelPreset := opts_babelPreset opts;
     opts_chainWebpack := opts_chainWebpack opts;
     opts_modifyWebpackConfig := opts_modifyWebpackConfig opts;
     opts_beforeBabelPlugins := opts_beforeBabelPlugins opts;
     opts_beforeBabelPresets := opts_beforeBabelPresets opts;
     opts_extraBabelPlugins := opts_extraBabelPlugins opts;
     opts_extraBabelPresets := opts_extraBabelPresets opts;
     opts_onBuildComplete := opts_onBuildComplete opts;
     opts_clean := opts_clean opts;
     opts_htmlFiles := htmlFiles |}.

(** Stage 7, lines 225-231. *)
Definition html_complete (api : Api) (opts : Opts)
           (htmlFiles : list HtmlFile) : P unit :=
  let args := with_htmlFiles opts htmlFiles in
  call (EApplyPlugins "onBuildHtmlComplete" (ArgsHtmlComplete args))
       (applyEvent (h_onBuildHtmlComplete (api_hooks api)) args).

(** The command body (build.ts:33-234). *)
Definition fn (api : Api) : P unit :=
  clear_tmp api >>
  check_pkg api >>
  generate_files api >>
  do '(opts, bundler) <- compose_build_options api in
  do stats <- execute_build bundler opts in
  measure_sizes api opts stats >>
  do htmlFiles <- generate_html api opts stats in
  html_complete api opts htmlFiles.

(** [fn] up to the resolution of the bundler, and from there on. *)
Definition before_build (api : Api) : P (Opts * Js Bundler) :=
  clear_tmp api >>
  check_pkg api >>
  generate_files api >>
  compose_build_options api.

Definition after_compose (api : Api) (opts : Opts) (bundler : Js Bundler)
  : P unit :=
  do stats <- execute_build bundler opts in
  measure_sizes api opts stats >>
  do htmlFiles <- generate_html api opts stats in
  html_complete api opts htmlFiles.

(** ** Reading the journal *)

Definition label (e : Effect) : string :=
  match e with
  | ELoggerInfo m => "logger.info " ++ m
  | ERimraf d => "rimraf.sync " ++ d
  | EApplyPlugins k _ => "applyPlugins " ++ k
  | EGetBabelOpts => "getBabelOpts"
  | EBundlerBuild _ => "bundler.build"
  | EMeasureFileSizes d => "measureFileSizesBeforeBuild " ++ d
  | EConsoleLog => "console.log"
  | EPrintFileSizes _ _ d => "printFileSizesAfterBuild " ++ d
  | EGetAssetsMap => "getAssetsMap"
  | EGetMarkupArgs => "getMarkupArgs"
  | EGetMarkup _ => "getMarkup"
  | EMkdirp d => "mkdirpSync " ++ d
  | EWriteFile f _ => "writeFileSync " ++ f
  | ELoggerEvent m => "logger.event " ++ m
  | EThrown _ => "throw"
  end.

(** The arguments of the dispatches issued under [key], in order. *)
Definition dispatch_args (key : string) (j : list Effect) : list ArgsView :=
  flat_map (fun e => match e with
                     | EApplyPlugins k a => if (k =? key)%string then [a] else []
                     | _ => []
                     end) j.

(** The [writeFileSync] calls, as [(file, content)]. *)
Definition writes (j : list Effect) : list (string * string) :=
  flat_map (fun e => match e with EWriteFile f c => [(f, c)] | _ => [] end) j.

(** The options of the [bundler.build] calls. *)
Definition builds (j : list Effect) : list Opts :=
  flat_map (fun e => match e with EBundlerBuild o => [o] | _ => [] end) j.

(** The [buildFolder] of the [printFileSizesAfterBuild] calls. *)
Definition reports (j : list Effect) : list string :=
  flat_map (fun e => match e with EPrintFileSizes _ _ d => [d] | _ => [] end) j.

Definition thrown (j : list Effect) : list Failure :=
  flat_map (fun e => match e with EThrown x => [x] | _ => [] end) j.

(** *** Program points

    [rank] numbers the call sites of [fn] in program order; the three calls
    of the [forEach] body share one number, since the loop repeats them. *)
Definition key_rank (key : string) : nat :=
  if (key =? "onCheckPkgJSON")%string then 2
  else if (key =? "onGenerateFiles")%string then 3
  else if (key =? "modifyEntry")%string then 5
  else if (key =? "onBeforeCompiler")%string then 6
  else if (key =? "modifyUniBundlerOpts")%string then 7
  else if (key =? "modifyUniBundler")%string then 8
  else if (key =? "modifyExportHTMLFiles")%string then 17
  else if (key =? "onBuildHtmlComplete")%string then 19
  else 0.

Definition rank (e : Effect) : nat :=
  match e with
  | ELoggerInfo m => if (m =? file_sizes_heading)%string then 12 else 0
  | ERimraf _ => 1
  | EApplyPlugins k _ => key_rank k
  | EGetBabelOpts => 4
  | EBundlerBuild _ => 9
  | EMeasureFileSizes _ => 10
  | EConsoleLog => 11
  | EPrintFileSizes _ _ _ => 13
  | EGetAssetsMap => 14
  | EGetMarkupArgs => 15
  | EGetMarkup _ => 16
  | EMkdirp _ => 18
  | EWriteFile _ _ => 18
  | ELoggerEvent _ => 18
  | EThrown _ => 20
  end.

(** The least rank that may follow rank [n]. *)
Definition next_rank (n : nat) : nat := if (n =? 18)%nat then 18 else Datatypes.S n.

(** [chain lo hi j]: the entries of [j] have ranks within [lo..hi] and
    follow one another in program order. *)
Fixpoint chain (lo hi : nat) (j : list Effect) : Prop :=
  match j with
  | [] => True
  | e :: j' => (lo <= rank e)%nat /\ (rank e <= hi)%nat /\ chain (next_rank (rank e)) hi j'
  end.

Definition outcome_tail {A} (r : Result A) : list Effect :=
  match r with
  | Ok _ => []
  | Err e => [EThrown e]
  end.

(** [m] appends to the journal a chain within [lo..hi], closed by the
    failure it ends with, if any. *)
Definition staged (lo hi : nat) {A} (m : P A) : Prop :=
  forall w r w', m w = (r, w') ->
    exists body, log w' = log w ++ body ++ outcome_tail r /\ chain lo hi body.

(** An external call that returns on every store. *)
Definition total {A} (m : Ext A) : Prop :=
  forall s, exists a s', m s = (Ok a, s').

(** Every imported helper returns, whatever the store. *)
Definition helpers_total (api : Api) : Prop :=
  (forall d, total (rimraf_sync imp d))
  /\ total (getBabelOpts imp api)
  /\ (forall d, total (measureFileSizesBeforeBuild imp d))
  /\ (forall st prev d, total (printFileSizesAfterBuild imp st prev d))
  /\ (forall st pp, total (getAssetsMap imp st pp))
  /\ total (getMarkupArgs imp api)
  /\ (forall a, total (getMarkup imp a))
  /\ (forall d, total (mkdirpSync imp d))
  /\ (forall f c, total (writeFileSync imp f c)).

(** A registry whose only handler sits under [modifyUniBundler]. *)
Definition only_bundler_hook (h : ModifyHandler (Js Bundler) UniBundlerArgs)
  : Hooks :=
  {| h_onCheckPkgJSON := []; h_onGenerateFiles := []; h_chainWebpack := [];
     h_modifyWebpackConfig := []; h_modifyViteConfig := [];
     h_modifyEntry := []; h_onBuildComplete := []; h_onBeforeCompiler := [];
     h_modifyUniBundlerOpts := []; h_modifyUniBundler := [h];
     h_modifyExportHTMLFiles := []; h_onBuildHtmlComplete := [] |}.



(** ** Further readings of the journal *)

(** The keys of the dispatches, in the order they were issued. *)
Definition dispatched_keys (j : list Effect) : list string :=
  flat_map (fun e => match e with EApplyPlugins k _ => [k] | _ => [] end) j.

(** The hook keys that the statements of [fn] dispatch themselves (lines
    40, 50, 93, 133, 138, 146, 204 and 225), in the order of its text; the
    HTML dispatch is inside the [if (!api.config.mpa)] of line 178.  The
    keys of the closures handed to the bundler ([chainWebpack],
    [modifyWebpackConfig], [modifyViteConfig], [onBuildComplete]) are not
    among them. *)
Definition hook_order (api : Api) : list string :=
  [ "onCheckPkgJSON"; "onGenerateFiles"; "modifyEntry"; "onBeforeCompiler";
    "modifyUniBundlerOpts"; "modifyUniBundler" ]
  ++ (if config_mpa (api_config api) then [] else ["modifyExportHTMLFiles"])
  ++ ["onBuildHtmlComplete"].

(** The hook keys that only the closures of the options literal dispatch
    (lines 73, 81, 88 and 125).  These dispatches are made by the bundler,
    inside [bundler.build], when and as often as it calls the closures;
    each call of a closure makes one of them ([chainWebpack],
    [modifyWebpackConfig], [modifyViteConfig], [onBuildComplete]). *)
Definition closure_keys : list string :=
  [ "chainWebpack"; "modifyWebpackConfig"; "modifyViteConfig";
    "onBuildComplete" ].

(** [m] issues the dispatches [full], in that order, or a first part of
    them when it fails. *)
Definition keys_upto (full : list string) {A} (m : P A) : Prop :=
  forall w r w', m w = (r, w') ->
    exists ks,
      dispatched_keys (log w') = dispatched_keys (log w) ++ ks
      /\ (exists rest, full = ks ++ rest)
      /\ (forall a, r = Ok a -> ks = full).

(** The directories of the [rimraf.sync] calls. *)
Definition removals (j : list Effect) : list string :=
  flat_map (fun e => match e with ERimraf d => [d] | _ => [] end) j.

(** The folders of the [measureFileSizesBeforeBuild] calls. *)
Definition measures (j : list Effect) : list string :=
  flat_map (fun e => match e with EMeasureFileSizes d => [d] | _ => [] end) j.

(** The arguments of the [getMarkup] calls. *)
Definition renders (j : list Effect) : list MarkupArgs :=
  flat_map (fun e => match e with EGetMarkup a => [a] | _ => [] end) j.

(** One [tt] per [getAssetsMap] call. *)
Definition asset_maps (j : list Effect) : list unit :=
  flat_map (fun e => match e with EGetAssetsMap => [tt] | _ => [] end) j.

(** The directories of the [mkdirpSync] calls. *)
Definition mkdirs (j : list Effect) : list string :=
  flat_map (fun e => match e with EMkdirp d => [d] | _ => [] end) j.

(** Where and what line 219 writes for a document. *)
Definition target (api : Api) (f : HtmlFile) : string * string :=
  (resolve imp (api_absOutputPath api) (html_path f), html_content f).

(** What the [forEach] of lines 215-221 asks of the file system: for each
    document in turn, [mkdirpSync] of the directory of its target, then
    [writeFileSync] of the target; the first call that throws ends it. *)
Fixpoint write_all (api : Api) (htmlFiles : list HtmlFile) : Ext unit :=
  match htmlFiles with
  | [] => ret tt
  | f :: rest =>
      mkdirpSync imp (dirname imp (fst (target api f))) >>
      writeFileSync imp (fst (target api f)) (snd (target api f)) >>
      write_all api rest
  end.

End Build.

Arguments fn {S Any} imp api w.
Arguments only_bundler_hook {S Any} h.

(** ** A sample project *)

(** The external store of the samples is a journal of what the outside
    world did; payloads are strings. *)
Module sample.

Definition note {A} (msg : string) (a : A) : @Ext (list string) A :=
  fun s => (Ok a, s ++ [msg]).

Definition babel : @BabelOpts string :=
  {| babelPreset := "preset"; beforeBabelPlugins := "bbp";
     beforeBabelPresets := "bbs"; extraBabelPlugins := "ebp";
     extraBabelPresets := "ebs" |}.

Definition markup : @MarkupArgs string :=
  {| styles := [External "b.css"]; scripts := [External "b.js"];
     esmScript := VUndefined; path := None; markup_others := "title" |}.

Definition assets : gmap string (list string) :=
  {[ "umi.js" := ["a.js"]; "umi.css" := ["a.css"] ]}.

(** The text before the last [/]. *)
Fixpoint dirname_aux (s : string) : option string :=
  match s with
  | EmptyString => None
  | String c r =>
      match dirname_aux r with
      | Some d => Some (String c d)
      | None => if Ascii.eqb c "/" then Some EmptyString else None
      end
  end.

Definition dir_name (s : string) : string := default "." (dirname_aux s).

Definition slash (a b : string) : string := a ++ "/" ++ b.

(** A file system that refuses to write [/app/dist/locked.html]. *)
Definition write_file (file content : string) : @Ext (list string) unit :=
  if String.eqb file "/app/dist/locked.html"
  then throw (IOFailure "EACCES")
  else note ("write " ++ file) tt.

Definition imports_with
           (write : string -> string -> @Ext (list string) unit)
  : @Imports (list string) string :=
  {| rimraf_sync := fun dir => note ("rimraf " ++ dir) tt;
     getBabelOpts := fun _ => ret babel;
     printMemoryUsage := ret tt;
     measureFileSizesBeforeBuild := fun dir => note ("measure " ++ dir) "sizes";
     printFileSizesAfterBuild := fun _ _ _ => ret tt;
     getAssetsMap := fun _ _ => ret assets;
     getMarkupArgs := fun _ => ret markup;
     getMarkup := fun _ => ret "<html></html>";
     mkdirpSync := fun dir => note ("mkdir " ++ dir) tt;
     writeFileSync := write;
     join := slash;
     resolve := slash;
     dirname := dir_name;
     DEFAULT_OUTPUT_PATH := "dist" |}.

Definition imports : @Imports (list string) string :=
  imports_with (fun file _ => note ("write " ++ file) tt).

Definition locked_imports : @Imports (list string) string :=
  imports_with write_file.

Definition no_hooks : @Hooks (list string) string :=
  {| h_onCheckPkgJSON := []; h_onGenerateFiles := []; h_chainWebpack := [];
     h_modifyWebpackConfig := []; h_modifyViteConfig := [];
     h_modifyEntry := []; h_onBuildComplete := []; h_onBeforeCompiler := [];
     h_modifyUniBundlerOpts := []; h_modifyUniBundler := [];
     h_modifyExportHTMLFiles := []; h_onBuildHtmlComplete := [] |}.

Definition config : @Config string :=
  {| config_vite := false; config_mako := false; config_mpa := false;
     config_esm := false; config_publicPath := "/";
     config_outputPath := None |}.

(** No [vite]/[mako] flags, react 17.1.0, nothing registered. *)
Definition bare : @Api (list string) string :=
  {| api_hooks := no_hooks; api_config := config;
     api_userConfig_outputPath := None; api_cwd := "/app";
     api_absTmpPath := "/app/src/.umi-production";
     api_absOutputPath := "/app/dist"; api_umi_version := "4.0.0";
     api_pkg := "pkg"; api_react_version := Some "17.1.0";
     api_bundler := "webpack"; api_args_vite := VUndefined |}.

Definition bundler : @Bundler (list string) string :=
  {| build := fun _ => note "bundler.build" "stats" |}.

Definition with_hooks (h : @Hooks (list string) string) : @Api (list string) string :=
  {| api_hooks := h; api_config := config;
     api_userConfig_outputPath := None; api_cwd := "/app";
     api_absTmpPath := "/app/src/.umi-production";
     api_absOutputPath := "/app/dist"; api_umi_version := "4.0.0";
     api_pkg := "pkg"; api_react_version := Some "17.1.0";
     api_bundler := "webpack"; api_args_vite := VUndefined |}.

(** One plugin supplies the bundler. *)
Definition supply_bundler
  : @ModifyHandler (list string) (Js (@Bundler (list string) string))
      (@UniBundlerArgs (list string) string) :=
  fun _ _ => ret (val bundler).

Definition bundler_hooks : @Hooks (list string) string :=
  only_bundler_hook supply_bundler.

Definition project := with_hooks bundler_hooks.

(** The bundler plugin together with [modifyExportHTMLFiles] handlers. *)
Definition html_hooks
           (hs : list (@ModifyHandler (list string) (list HtmlFile)
                         (@ExportHTMLArgs (list string) string)))
  : @Hooks (list string) string :=
  {| h_onCheckPkgJSON := []; h_onGenerateFiles := []; h_chainWebpack := [];
     h_modifyWebpackConfig := []; h_modifyViteConfig := [];
     h_modifyEntry := []; h_onBuildComplete := []; h_onBeforeCompiler := [];
     h_modifyUniBundlerOpts := []; h_modifyUniBundler := [supply_bundler];
     h_modifyExportHTMLFiles := hs; h_onBuildHtmlComplete := [] |}.


(** A handler that appends a second document. *)
Definition add_locked
  : @ModifyHandler (list string) (list HtmlFile)
      (@ExportHTMLArgs (list string) string) :=
  fun acc _ =>
    ret (acc ++ [ {| html_path := "locked.html"; html_content := "<p></p>" |} ]).


Definition second_document := with_hooks (html_hooks [add_locked]).

(** The sample project started with the [vite] argument. *)
Definition started_with_vite : @Api (list string) string :=
  {| api_hooks := bundler_hooks; api_config := config;
     api_userConfig_outputPath := None; api_cwd := "/app";
     api_absTmpPath := "/app/src/.umi-production";
     api_absOutputPath := "/app/dist"; api_umi_version := "4.0.0";
     api_pkg := "pkg"; api_react_version := Some "17.1.0";
     api_bundler := "webpack"; api_args_vite := VBool true |}.

(** The sample project on the [vite] backend. *)
Definition vite_config : @Config string :=
  {| config_vite := true; config_mako := false; config_mpa := false;
     config_esm := false; config_publicPath := "/";
     config_outputPath := None |}.

(** The sample project in multi-page mode. *)
Definition mpa_config : @Config string :=
  {| config_vite := false; config_mako := false; config_mpa := true;
     config_esm := false; config_publicPath := "/";
     config_outputPath := None |}.

Definition with_config (c : @Config string) (version : option string)
  : @Api (list string) string :=
  {| api_hooks := bundler_hooks; api_config := c;
     api_userConfig_outputPath := None; api_cwd := "/app";
     api_absTmpPath := "/app/src/.umi-production";
     api_absOutputPath := "/app/dist"; api_umi_version := "4.0.0";
     api_pkg := "pkg"; api_react_version := version;
     api_bundler := "webpack"; api_args_vite := VUndefined |}.

Definition vite_project := with_config vite_config (Some "17.1.0").

Definition mpa_project := with_config mpa_config (Some "17.1.0").

(** A project whose react version is not a version. *)
Definition unversioned := with_config config (Some "latest").

(** A configuration that has the [outputPath] key without a value, under
    a user configuration that asks for [out]. *)
Definition unset_output_config : @Config string :=
  {| config_vite := false; config_mako := false; config_mpa := false;
     config_esm := false; config_publicPath := "/";
     config_outputPath := Some undefined |}.

Definition unset_output : @Api (list string) string :=
  {| api_hooks := bundler_hooks; api_config := unset_output_config;
     api_userConfig_outputPath := Some (val "out"); api_cwd := "/app";
     api_absTmpPath := "/app/src/.umi-production";
     api_absOutputPath := "/app/dist"; api_umi_version := "4.0.0";
     api_pkg := "pkg"; api_react_version := Some "17.1.0";
     api_bundler := "webpack"; api_args_vite := VUndefined |}.

(** The options that the options stage of the sample project returns. *)
Definition opts : @Opts (list string) string :=
  match fst (compose_build_options imports project (init [])) with
  | Ok (o, _) => o
  | Err _ => compose_opts imports project false babel ∅
  end.

End sample.

(** * Properties *)

(** ** Semantic versions against 17.0.0 *)

(** [v >= 17.0.0] in numbers: a pre-release of 17.0.0 itself is below the
    release. *)
Lemma ge_17_iff (v : semver.SemVer) :
  semver.ge v (semver.mkSemVer 17 0 0 []) = true <->
  (17 < semver.major v
   \/ (semver.major v = 17
       /\ (0 < semver.minor v \/ 0 < semver.patch v
           \/ semver.prerelease v = [])))%N.
Proof.
  destruct v as [ma mi pa pre].
  unfold semver.ge, semver.compare, semver.compareMain, semver.comparePre.
  simpl.
  destruct (N.compare_spec ma 17) as [-> | Hlt | Hgt]; simpl.
  - destruct (N.compare_spec mi 0) as [-> | Hlt | Hgt]; simpl.
    + destruct (N.compare_spec pa 0) as [-> | Hlt | Hgt]; simpl.
      * destruct pre; simpl; split; intros H; try reflexivity;
          try discriminate; try (right; split; [reflexivity|]; auto).
        destruct H as [H | [_ [H | [H | H]]]]; try lia; discriminate.
      * lia.
      * split; [intros _ | reflexivity]. right. split; [reflexivity | lia].
    + lia.
    + split; [intros _ | reflexivity]. right. split; [reflexivity | lia].
  - split; [discriminate | lia].
  - split; [intros _; lia | reflexivity].
Qed.

(** ** Runs of the command *)

Section Facts.

Context {S Any : Type}.
Variable imp : @Imports S Any.

Abbreviation Effect := (@Effect S Any).
Abbreviation World := (@World S Any).
Abbreviation P := (@P S Any).
Abbreviation Api := (@Api S Any).
Abbreviation Opts := (@Opts S Any).
Abbreviation Bundler := (@Bundler S Any).
Abbreviation Ext := (@Ext S).
Abbreviation BabelOpts := (@BabelOpts Any).
Abbreviation MarkupArgs := (@MarkupArgs Any).

(** *** The journal only grows, in program order *)

Lemma next_rank_mono n m : (n <= m)%nat -> (next_rank n <= next_rank m)%nat.
Proof.
  unfold next_rank. intros H.
  destruct (Nat.eqb_spec n 18), (Nat.eqb_spec m 18); lia.
Qed.

Lemma next_rank_le n : (n <= next_rank n)%nat.
Proof. unfold next_rank. destruct (Nat.eqb_spec n 18); lia. Qed.

Lemma chain_weaken lo hi lo' hi' (j : list Effect) :
  (lo' <= lo)%nat -> (hi <= hi')%nat -> chain lo hi j -> chain lo' hi' j.
Proof.
  revert lo lo'. induction j as [|e j IH]; simpl; intros lo lo' Hlo Hhi H.
  - exact I.
  - destruct H as (H1 & H2 & H3). repeat split; try lia.
    apply (IH (next_rank (rank e))); auto.
Qed.

Lemma chain_app lo mid lo' hi (j1 j2 : list Effect) :
  chain lo mid j1 -> chain lo' hi j2 ->
  (next_rank mid <= lo')%nat -> (lo <= lo')%nat -> (mid <= hi)%nat ->
  chain lo hi (j1 ++ j2).
Proof.
  revert lo. induction j1 as [|e j1 IH]; simpl; intros lo H1 H2 Hn Hlo Hhi.
  - apply (chain_weaken lo' hi); auto.
  - destruct H1 as (Ha & Hb & Hc). repeat split; try lia.
    apply IH; auto.
    pose proof (next_rank_mono _ _ Hb). lia.
Qed.

Lemma chain_Forall lo hi (j : list Effect) :
  chain lo hi j -> Forall (fun e => (lo <= rank e <= hi)%nat) j.
Proof.
  revert lo. induction j as [|e j IH]; simpl; intros lo H.
  - constructor.
  - destruct H as (Ha & Hb & Hc). constructor; [lia|].
    apply IH in Hc. eapply Forall_impl; [exact Hc|].
    simpl. intros x Hx. pose proof (next_rank_le (rank e)). lia.
Qed.

Lemma chain_In lo hi (j : list Effect) e :
  chain lo hi j -> In e j -> (lo <= rank e <= hi)%nat.
Proof.
  intros Hc Hin. apply chain_Forall in Hc.
  rewrite List.Forall_forall in Hc. apply Hc. exact Hin.
Qed.

(** In a chain, what precedes an entry has at most its rank, and what
    follows it has at least the next one. *)
Lemma chain_split lo hi (j1 j2 : list Effect) e :
  chain lo hi (j1 ++ e :: j2) ->
  Forall (fun x => (rank x <= rank e)%nat) j1
  /\ Forall (fun x => (next_rank (rank e) <= rank x)%nat) j2.
Proof.
  revert lo. induction j1 as [|x j1 IH]; simpl; intros lo H.
  - destruct H as (_ & _ & H). split; [constructor|].
    apply chain_Forall in H. eapply Forall_impl; [exact H|].
    simpl. intros; lia.
  - destruct H as (Ha & Hb & Hc). pose proof Hc as Hc'.
    apply IH in Hc. destruct Hc as [H1 H2]. split; [|exact H2].
    constructor; [|exact H1].
    apply chain_Forall in Hc'. rewrite Forall_app in Hc'.
    destruct Hc' as [_ Hc']. inversion Hc'; subst.
    pose proof (next_rank_le (rank x)). lia.
Qed.

Lemma staged_ret lo hi {A} (a : A) : staged lo hi (ret a : P A).
Proof.
  intros w r w' E. inversion E; subst. exists []. simpl.
  rewrite app_nil_r. split; [reflexivity | exact I].
Qed.

Lemma staged_fail lo hi {A} (e : Failure) : staged lo hi (fail e : P A).
Proof.
  intros w r w' E. inversion E; subst. exists []. simpl.
  split; [reflexivity | exact I].
Qed.

Lemma staged_emit lo hi (e : Effect) :
  (lo <= rank e)%nat -> (rank e <= hi)%nat -> staged lo hi (emit e).
Proof.
  intros Hlo Hhi w r w' E. inversion E; subst. exists [e]. simpl.
  split; [reflexivity | auto].
Qed.

Lemma staged_lift lo hi {A} (m : Ext A) : staged lo hi (lift m : P A).
Proof.
  intros w r w' E. unfold lift in E.
  destruct (m (ext w)) as [[a|e] s]; inversion E; subst; exists []; simpl;
    rewrite ?app_nil_r; split; auto.
Qed.

Lemma staged_bind lo mid lo' hi {A B} (m : P A) (k : A -> P B) :
  staged lo mid m -> (forall a, staged lo' hi (k a)) ->
  (next_rank mid <= lo')%nat -> (lo <= lo')%nat -> (mid <= hi)%nat ->
  staged lo hi (bind m k).
Proof.
  intros Hm Hk Hn Hlo Hhi w r w' E. unfold bind in E.
  destruct (m w) as [[a|e] w1] eqn:Em.
  - destruct (Hm _ _ _ Em) as (b1 & Hl1 & Hc1).
    destruct (Hk a _ _ _ E) as (b2 & Hl2 & Hc2).
    exists (b1 ++ b2). split.
    + rewrite Hl2, Hl1. simpl. rewrite app_nil_r, <- !app_assoc. reflexivity.
    + eapply chain_app; eauto.
  - inversion E; subst. destruct (Hm _ _ _ Em) as (b1 & Hl1 & Hc1).
    exists b1. split; [exact Hl1|]. eapply chain_weaken; [| |exact Hc1]; lia.
Qed.

Lemma staged_call lo hi {A} (e : Effect) (m : Ext A) :
  (lo <= rank e)%nat -> (rank e <= hi)%nat -> staged lo hi (call e m).
Proof.
  intros Hlo Hhi. unfold call.
  apply (staged_bind lo (rank e) (next_rank (rank e)) hi).
  - apply staged_emit; lia.
  - intros _. apply staged_lift.
  - lia.
  - pose proof (next_rank_le (rank e)). lia.
  - exact Hhi.
Qed.

(** [call e m] followed by a continuation that stays after [e]. *)
Lemma staged_call_then lo hi lo' {A B} (e : Effect) (m : Ext A) (k : A -> P B) :
  (lo <= rank e)%nat -> (rank e <= hi)%nat -> lo' = next_rank (rank e) ->
  (forall a, staged lo' hi (k a)) ->
  staged lo hi (bind (call e m) k).
Proof.
  intros Hlo Hhi -> Hk.
  apply (staged_bind lo (rank e) (next_rank (rank e)) hi); auto.
  - apply staged_call; lia.
  - pose proof (next_rank_le (rank e)). lia.
Qed.

Lemma staged_emit_then lo hi lo' {B} (e : Effect) (k : unit -> P B) :
  (lo <= rank e)%nat -> (rank e <= hi)%nat -> lo' = next_rank (rank e) ->
  (forall a, staged lo' hi (k a)) ->
  staged lo hi (bind (emit e) k).
Proof.
  intros Hlo Hhi -> Hk.
  apply (staged_bind lo (rank e) (next_rank (rank e)) hi); auto.
  - apply staged_emit; lia.
  - pose proof (next_rank_le (rank e)). lia.
Qed.

(** A computation that enters nothing but its own failure. *)
Lemma staged_silent_then lo hi {A B} (m : P A) (k : A -> P B) :
  (forall w r w', m w = (r, w') -> log w' = log w ++ outcome_tail r) ->
  (forall a, staged lo hi (k a)) ->
  staged lo hi (bind m k).
Proof.
  intros Hm Hk w r w' E. unfold bind in E.
  destruct (m w) as [[a|e] w1] eqn:Em.
  - apply Hm in Em. simpl in Em. rewrite app_nil_r in Em.
    destruct (Hk a _ _ _ E) as (b & Hl & Hc). exists b.
    rewrite Hl, Em. auto.
  - inversion E; subst. apply Hm in Em. exists []. simpl. auto.
Qed.

Lemma of_result_silent {A} (x : Result A) (w : World) r w' :
  of_result x w = (r, w') -> log w' = log w ++ outcome_tail r.
Proof.
  destruct x; simpl; intros E; inversion E; subst; simpl;
    rewrite ?app_nil_r; reflexivity.
Qed.

Lemma ret_silent {A} (a : A) (w : World) r w' :
  (ret a : P A) w = (r, w') -> log w' = log w ++ outcome_tail r.
Proof. intros E; inversion E; subst; simpl. rewrite app_nil_r. reflexivity. Qed.

Ltac rank_side := cbv; first [reflexivity | lia].

Ltac staged_step :=
  lazymatch goal with
  | |- staged _ _ (bind (call _ _) _) =>
      eapply staged_call_then; [rank_side | rank_side | cbv; reflexivity | intros ?]
  | |- staged _ _ (bind (emit _) _) =>
      eapply staged_emit_then; [rank_side | rank_side | cbv; reflexivity | intros ?]
  | |- staged _ _ (bind (of_result _) _) =>
      apply staged_silent_then; [apply of_result_silent | intros ?]
  | |- staged _ _ (bind (ret _) _) =>
      apply staged_silent_then; [apply ret_silent | intros ?]
  | |- staged _ _ (call _ _) => apply staged_call; rank_side
  | |- staged _ _ (emit _) => apply staged_emit; rank_side
  | |- staged _ _ (ret _) => apply staged_ret
  | |- staged _ _ (fail _) => apply staged_fail
  | |- staged _ _ (let '(_, _) := ?p in _) => destruct p
  end.

Lemma staged_clear_tmp (api : Api) : staged 0 1 (clear_tmp imp api).
Proof. unfold clear_tmp. repeat staged_step. Qed.

Lemma staged_check_pkg (api : Api) : staged 2 2 (check_pkg api).
Proof. unfold check_pkg. repeat staged_step. Qed.

Lemma staged_generate (api : Api) opts : staged 3 3 (generate api opts).
Proof. unfold generate. repeat staged_step. Qed.

Lemma staged_generate_files (api : Api) : staged 3 3 (generate_files api).
Proof. apply staged_generate. Qed.

Lemma staged_compose_build_options (api : Api) :
  staged 4 8 (compose_build_options imp api).
Proof. unfold compose_build_options. repeat staged_step. Qed.

Lemma staged_execute_build (bundler : Js Bundler) (opts : Opts) :
  staged 9 9 (execute_build bundler opts).
Proof. unfold execute_build. destruct bundler; repeat staged_step. Qed.

Lemma staged_measure_sizes (api : Api) (opts : Opts) (stats : Any) :
  staged 10 13 (measure_sizes imp api opts stats).
Proof.
  unfold measure_sizes.
  destruct (negb (config_vite (api_config api)) && negb (config_mako (api_config api)));
    repeat staged_step.
Qed.

Lemma staged_write_html_files (api : Api) htmlFiles :
  staged 18 18 (write_html_files imp api htmlFiles).
Proof.
  induction htmlFiles as [|f rest IH]; simpl.
  - apply staged_ret.
  - repeat staged_step. exact IH.
Qed.

Lemma staged_collect_html_files (api : Api) (opts : Opts) (stats : Any) :
  staged 14 17 (collect_html_files imp api opts stats).
Proof.
  unfold collect_html_files.
  destruct (config_vite (api_config api)); repeat staged_step.
Qed.

Lemma staged_generate_html (api : Api) (opts : Opts) (stats : Any) :
  staged 14 18 (generate_html imp api opts stats).
Proof.
  unfold generate_html. destruct (negb (config_mpa (api_config api))).
  - apply (staged_bind 14 17 18 18); [apply staged_collect_html_files | | cbn; lia ..].
    intros files.
    apply (staged_bind 18 18 18 18); [apply staged_write_html_files | | cbn; lia ..].
    intros _. apply staged_ret.
  - apply staged_ret.
Qed.

Lemma staged_html_complete (api : Api) (opts : Opts) htmlFiles :
  staged 19 19 (html_complete api opts htmlFiles).
Proof. unfold html_complete. repeat staged_step. Qed.

(** The stages after the bundler has been resolved. *)
Lemma staged_after_compose (api : Api) (opts : Opts) (bundler : Js Bundler) :
  staged 9 19
    (do stats <- execute_build bundler opts in
     measure_sizes imp api opts stats >>
     do htmlFiles <- generate_html imp api opts stats in
     html_complete api opts htmlFiles).
Proof.
  apply (staged_bind 9 9 10 19); [apply staged_execute_build | | cbn; lia ..].
  intros stats.
  apply (staged_bind 10 13 14 19); [apply staged_measure_sizes | | cbn; lia ..].
  intros _.
  apply (staged_bind 14 18 19 19); [apply staged_generate_html | | cbn; lia ..].
  intros htmlFiles. apply staged_html_complete.
Qed.

(** Every run of [fn] enters its calls in program order, and a failure is
    the last entry. *)
Lemma staged_fn (api : Api) : staged 0 19 (fn imp api).
Proof.
  unfold fn.
  apply (staged_bind 0 1 2 19); [apply staged_clear_tmp | | cbn; lia ..].
  intros _.
  apply (staged_bind 2 2 3 19); [apply staged_check_pkg | | cbn; lia ..].
  intros _.
  apply (staged_bind 3 3 4 19); [apply staged_generate_files | | cbn; lia ..].
  intros _.
  apply (staged_bind 4 8 9 19); [apply staged_compose_build_options | | cbn; lia ..].
  intros [opts bundler]. apply staged_after_compose.
Qed.

(** *** The options literal *)

Lemma parse_threshold :
  semver.parse "17.0.0" = Some (semver.mkSemVer 17 0 0 []).
Proof. reflexivity. Qed.


(** The edges of the selection: an empty version string is falsy, a
    pre-release of 17.0.0 precedes the release, and a string that is not a
    version makes [semver.gte] throw. *)
Lemma runtime_edge_cases (api : Api) :
  (api_react_version api = Some "" ->
   shouldUseAutomaticRuntime api = Ok false)
  /\ (api_react_version api = Some "17.0.0-rc.1" ->
      shouldUseAutomaticRuntime api = Ok false)
  /\ (api_react_version api = Some "17.0.1-rc.1" ->
      shouldUseAutomaticRuntime api = Ok true)
  /\ (api_react_version api = Some "latest" ->
      shouldUseAutomaticRuntime api = Err (TypeError "Invalid Version: latest")).
Proof.
  repeat split; intros Hv; unfold shouldUseAutomaticRuntime; rewrite Hv;
    reflexivity.
Qed.

(** C6: with the [vite] flag the literal has [modifyViteConfig] and none of
    [babelPreset], [chainWebpack], [modifyWebpackConfig]; without it (so in
    particular with [vite] and [mako] both off) it has those three and no
    [modifyViteConfig]. *)
Theorem bundler_option_shape (api : Api) (b : bool) (babel : BabelOpts)
        (entry : gmap string string) :
  let o := compose_opts imp api b babel entry in
  if config_vite (api_config api) then
    opts_modifyViteConfig o = Some (modifyViteConfig api)
    /\ opts_babelPreset o = None
    /\ opts_chainWebpack o = None
    /\ opts_modifyWebpackConfig o = None
  else
    opts_modifyViteConfig o = None
    /\ opts_babelPreset o = Some (babelPreset babel)
    /\ opts_chainWebpack o = Some (chainWebpack api)
    /\ opts_modifyWebpackConfig o = Some (modifyWebpackConfig api).
Proof.
  simpl. destruct (config_vite (api_config api)); repeat split.
Qed.

(** C10: [chainWebpack] runs the [chainWebpack] dispatch (same store, same
    failure) and returns [undefined] whatever the final accumulator is;
    [modifyWebpackConfig] and [modifyViteConfig] return the final
    accumulator of their dispatches. *)
Theorem closure_results (api : Api) (memo args : Any) (s : S) :
  chainWebpack api memo args s
  = match applyModify (h_chainWebpack (api_hooks api)) memo args s with
    | (Ok _, s') => (Ok undefined, s')
    | (Err e, s') => (Err e, s')
    end
  /\ modifyWebpackConfig api memo args s
     = match applyModify (h_modifyWebpackConfig (api_hooks api)) memo args s with
       | (Ok acc, s') => (Ok (val acc), s')
       | (Err e, s') => (Err e, s')
       end
  /\ modifyViteConfig api memo args s
     = match applyModify (h_modifyViteConfig (api_hooks api)) memo args s with
       | (Ok acc, s') => (Ok (val acc), s')
       | (Err e, s') => (Err e, s')
       end.
Proof.
  unfold chainWebpack, modifyWebpackConfig, modifyViteConfig, bind, ret.
  repeat split;
    match goal with |- context [applyModify ?h ?m ?a ?s] =>
      destruct (applyModify h m a s) as [[acc|e] s'] end; reflexivity.
Qed.

(** *** The markup arguments *)

(** C5: off the [vite] backend, the final scripts are the mapped [umi.js]
    urls followed by the supplied scripts, and the final styles are the
    supplied styles followed by the mapped [umi.css] urls. *)
Theorem asset_merge_order (api : Api) (opts : Opts)
        (assetsMap : gmap string (list string)) (args : MarkupArgs) :
  config_vite (api_config api) = false ->
  scripts (finalMarkUpArgs api opts assetsMap args)
  = map Src (default [] (assetsMap !! "umi.js")) ++ scripts args
  /\ styles (finalMarkUpArgs api opts assetsMap args)
     = styles args ++ map Src (default [] (assetsMap !! "umi.css")).
Proof.
  intros Hvite. unfold finalMarkUpArgs, mapped. simpl. rewrite Hvite.
  split; reflexivity.
Qed.

(** The options literal carries [api.config.esm] unchanged. *)
Lemma compose_opts_esm (api : Api) (b : bool) (babel : BabelOpts)
      (entry : gmap string string) :
  config_esm (opts_config (compose_opts imp api b babel entry))
  = config_esm (api_config api).
Proof. reflexivity. Qed.

(** C7: [esmScript] of the final markup arguments is [true] when
    [opts.config.esm] is truthy and the [vite] command-line argument
    otherwise, so it is truthy exactly when the configuration asks for ESM
    output or the [vite] argument is set. *)
Theorem esmScript_flag (api : Api) (opts : Opts)
        (assetsMap : gmap string (list string)) (args : MarkupArgs) :
  esmScript (finalMarkUpArgs api opts assetsMap args)
  = (if config_esm (opts_config opts) then VBool true else api_args_vite api)
  /\ (truthy (esmScript (finalMarkUpArgs api opts assetsMap args)) = true
      <-> (config_esm (opts_config opts) = true
           \/ truthy (api_args_vite api) = true)).
Proof.
  unfold finalMarkUpArgs, js_or. simpl.
  destruct (config_esm (opts_config opts)); simpl;
    (split; [reflexivity | intuition congruence]).
Qed.

(** *** Whole runs *)

Lemma bind_run {W A B} (m : St W A) (k : A -> St W B) (w : W) :
  bind m k w = match m w with
               | (Ok a, w1) => k a w1
               | (Err e, w1) => (Err e, w1)
               end.
Proof. reflexivity. Qed.

Lemma staged_before_build (api : Api) : staged 0 8 (before_build imp api).
Proof.
  unfold before_build.
  apply (staged_bind 0 1 2 8); [apply staged_clear_tmp | | cbn; lia ..].
  intros _.
  apply (staged_bind 2 2 3 8); [apply staged_check_pkg | | cbn; lia ..].
  intros _.
  apply (staged_bind 3 3 4 8); [apply staged_generate_files | | cbn; lia ..].
  intros _. apply staged_compose_build_options.
Qed.

Lemma fn_split (api : Api) (w : World) :
  fn imp api w
  = match before_build imp api w with
    | (Ok (opts, bundler), w4) => after_compose imp api opts bundler w4
    | (Err e, w4) => (Err e, w4)
    end.
Proof.
  unfold fn, before_build. rewrite !bind_run.
  destruct (clear_tmp imp api w) as [[u1|e1] w1]; [|reflexivity].
  rewrite !bind_run.
  destruct (check_pkg api w1) as [[u2|e2] w2]; [|reflexivity].
  rewrite !bind_run.
  destruct (generate_files api w2) as [[u3|e3] w3]; [|reflexivity].
  rewrite !bind_run.
  destruct (compose_build_options imp api w3) as [[[opts bundler]|e4] w4];
    reflexivity.
Qed.

(** The journal of a run: a chain of calls, closed by the failure. *)
Lemma fn_journal (api : Api) (s : S) r w' :
  fn imp api (init s) = (r, w') ->
  exists body, log w' = body ++ outcome_tail r /\ chain 0 19 body.
Proof.
  intros E. destruct (staged_fn api _ _ _ E) as (body & Hl & Hc).
  exists body. split; [exact Hl | exact Hc].
Qed.

Lemma fn_journal_chain (api : Api) (s : S) r w' :
  fn imp api (init s) = (r, w') -> chain 0 20 (log w').
Proof.
  intros E. destruct (fn_journal _ _ _ _ E) as (body & -> & Hc).
  apply (chain_app 0 19 20 20); [exact Hc | | cbn; lia ..].
  destruct r; simpl; [exact I|]. repeat split; lia.
Qed.

Lemma flat_map_nil {X} (g : Effect -> list X) (j : list Effect) :
  Forall (fun e => g e = []) j -> flat_map g j = [].
Proof.
  induction 1 as [|e j He _ IH]; simpl; [reflexivity|].
  rewrite He, IH. reflexivity.
Qed.

(** Entries outside the ranks of a projection do not show in it. *)
Lemma flat_map_outside {X} (g : Effect -> list X) (n lo hi : nat)
      (j : list Effect) :
  (forall e, rank e <> n -> g e = []) -> chain lo hi j ->
  (n < lo \/ hi < n)%nat -> flat_map g j = [].
Proof.
  intros Hg Hc Hn. apply flat_map_nil. apply chain_Forall in Hc.
  eapply Forall_impl; [exact Hc|]. simpl. intros e He. apply Hg. lia.
Qed.

Lemma staged_flat_map {X A} (g : Effect -> list X) (n lo hi : nat)
      (m : P A) (w : World) r w' :
  staged lo hi m -> m w = (r, w') ->
  (forall e, rank e <> n -> g e = []) ->
  (n < lo \/ hi < n)%nat -> n <> 20%nat ->
  flat_map g (log w') = flat_map g (log w).
Proof.
  intros Hs E Hg Hn Hn'. destruct (Hs _ _ _ E) as (body & -> & Hc).
  rewrite !flat_map_app, (flat_map_outside g n lo hi body Hg Hc Hn).
  assert (flat_map g (outcome_tail r) = []) as ->.
  { destruct r; simpl; [reflexivity|]. rewrite Hg; [reflexivity|].
    simpl. congruence. }
  rewrite !app_nil_r. reflexivity.
Qed.

Lemma dispatch_rank (key : string) (e : Effect) :
  rank e <> key_rank key ->
  match e with
  | EApplyPlugins k a => if (k =? key)%string then [a] else []
  | _ => []
  end = [].
Proof.
  destruct e; try reflexivity. simpl.
  destruct (String.eqb_spec key0 key) as [-> | _]; [congruence | reflexivity].
Qed.

Lemma writes_rank (e : Effect) :
  rank e <> 18%nat ->
  match e with EWriteFile f c => [(f, c)] | _ => [] end = [].
Proof. destruct e; simpl; congruence. Qed.

Lemma builds_rank (e : Effect) :
  rank e <> 9%nat ->
  match e with EBundlerBuild o => [o] | _ => [] end = [].
Proof. destruct e; simpl; congruence. Qed.

Lemma reports_rank (e : Effect) :
  rank e <> 13%nat ->
  match e with EPrintFileSizes _ _ d => [d] | _ => [] end = [].
Proof. destruct e; simpl; congruence. Qed.

Lemma app_eq_split {X} (a b l1 l2 : list X) (x y : X) :
  a ++ x :: b = l1 ++ y :: l2 -> ~ In y a -> y <> x ->
  exists l1', l1 = a ++ x :: l1'.
Proof.
  revert l1. induction a as [|z a IH]; simpl; intros l1 E Hin Hne.
  - destruct l1 as [|x' l1]; simpl in E; inversion E; subst.
    + congruence.
    + eauto.
  - destruct l1 as [|z' l1]; simpl in E; inversion E; subst.
    + exfalso. apply Hin. left. reflexivity.
    + destruct (IH l1 H1) as (l1' & ->); auto.
      eexists. reflexivity.
Qed.

(** Either the run stops before the bundler is called, or its journal has
    the [bundler.build] entry right after the entries of stages 1-3. *)
Lemma fn_build_point (api : Api) (s : S) r w' :
  fn imp api (init s) = (r, w') ->
  exists body, chain 0 8 body
    /\ ((exists e, r = Err e /\ log w' = body ++ [EThrown e])
        \/ (exists opts rest, log w' = body ++ EBundlerBuild opts :: rest)).
Proof.
  intros E. rewrite fn_split in E.
  destruct (before_build imp api (init s)) as [[[opts bundler]|e] w4] eqn:E4.
  - destruct (staged_before_build api _ _ _ E4) as (body & Hl & Hc).
    simpl in Hl. rewrite app_nil_r in Hl. exists body. split; [exact Hc|].
    unfold after_compose in E. rewrite bind_run in E.
    destruct bundler as [| |b]; simpl in E.
    + injection E as <- <-. left. eexists. split; [reflexivity|].
      simpl. rewrite Hl. reflexivity.
    + injection E as <- <-. left. eexists. split; [reflexivity|].
      simpl. rewrite Hl. reflexivity.
    + unfold call, emit, lift in E. rewrite bind_run in E. simpl in E.
      destruct (build b opts (ext w4)) as [[stats|e] s5].
      * right. exists opts.
        match type of E with ?m ?w = _ =>
          assert (Hs : staged 10 19 m) end.
        { apply (staged_bind 10 13 14 19);
            [apply staged_measure_sizes | | cbn; lia ..].
          intros _.
          apply (staged_bind 14 18 19 19);
            [apply staged_generate_html | | cbn; lia ..].
          intros htmlFiles. apply staged_html_complete. }
        destruct (Hs _ _ _ E) as (rest & Hl' & _). simpl in Hl'.
        eexists. rewrite Hl', Hl, <- !app_assoc. simpl. reflexivity.
      * injection E as <- <-. right. exists opts. simpl.
        eexists. rewrite Hl, <- !app_assoc. simpl. reflexivity.
  - injection E as <- <-.
    destruct (staged_before_build api _ _ _ E4) as (body & Hl & Hc).
    exists body. split; [exact Hc|]. left. exists e. split; [reflexivity|].
    exact Hl.
Qed.

(** C2 (as the code has it): in every run, the size snapshot is taken after
    the bundler's build call: a [measureFileSizesBeforeBuild] entry of the
    journal always has a [bundler.build] entry before it and none after. *)
Theorem measure_follows_build (api : Api) (s : S) l1 d l2 :
  log (snd (fn imp api (init s))) = l1 ++ EMeasureFileSizes d :: l2 ->
  (exists opts, In (EBundlerBuild opts) l1)
  /\ (forall opts, ~ In (EBundlerBuild opts) l2).
Proof.
  destruct (fn imp api (init s)) as [r w'] eqn:E. simpl. intros Hj. split.
  - destruct (fn_build_point _ _ _ _ E) as (body & Hc & [(e & _ & Hl) | (opts & rest & Hl)]).
    + exfalso. assert (Hin : In (EMeasureFileSizes d) (body ++ [EThrown e])).
      { rewrite <- Hl, Hj. apply in_or_app. right. left. reflexivity. }
      apply in_app_or in Hin. destruct Hin as [Hin | [Hin | []]]; [|discriminate].
      apply (chain_In _ _ _ _ Hc) in Hin. simpl in Hin. lia.
    + rewrite Hl in Hj. apply app_eq_split in Hj.
      * destruct Hj as (l1' & ->). exists opts.
        apply in_or_app. right. left. reflexivity.
      * intros Hin. apply (chain_In _ _ _ _ Hc) in Hin. simpl in Hin. lia.
      * discriminate.
  - intros opts Hin. pose proof (fn_journal_chain _ _ _ _ E) as Hc.
    rewrite Hj in Hc. apply chain_split in Hc. destruct Hc as [_ Hc].
    rewrite List.Forall_forall in Hc. apply Hc in Hin. cbv in Hin. lia.
Qed.

Lemma staged_dispatch_args (key : string) (lo hi : nat) {A} (m : P A)
      (w : World) r w' :
  staged lo hi m -> m w = (r, w') ->
  (key_rank key < lo \/ hi < key_rank key)%nat -> key_rank key <> 20%nat ->
  dispatch_args key (log w') = dispatch_args key (log w).
Proof.
  intros Hs E Hn Hn'. unfold dispatch_args.
  eapply staged_flat_map; eauto. intros e. apply dispatch_rank.
Qed.

Lemma staged_after_generate (api : Api) :
  staged 4 19
    (do '(opts, bundler) <- compose_build_options imp api in
     after_compose imp api opts bundler).
Proof.
  apply (staged_bind 4 8 9 19);
    [apply staged_compose_build_options | | cbn; lia ..].
  intros [opts bundler]. apply staged_after_compose.
Qed.

(** The [onGenerateFiles] dispatch of stage 2, as journalled. *)
Lemma generate_files_journal (api : Api) (w : World) r w' :
  generate_files api w = (r, w') ->
  log w' = log w
           ++ EApplyPlugins "onGenerateFiles"
                (ArgsGenerate {| files := null; isFirstTime := true |})
              :: outcome_tail r.
Proof.
  unfold generate_files, generate, call, emit, lift. rewrite bind_run.
  simpl.
  destruct (applyEvent _ _ (ext w)) as [[u|e] s']; intros E;
    injection E as <- <-; simpl; rewrite <- ?app_assoc; reflexivity.
Qed.

(** C9 (as the code has it): a run issues the [onGenerateFiles] dispatch
    once, with [isFirstTime] true and [files] null, when the removal of
    the temporary directory and the [onCheckPkgJSON] dispatch have
    returned, and never otherwise. *)
Theorem generate_dispatched_once (api : Api) (s : S) :
  dispatch_args "onGenerateFiles" (log (snd (fn imp api (init s))))
  = match fst ((clear_tmp imp api >> check_pkg api) (init s)) with
    | Ok _ => [ArgsGenerate {| files := null; isFirstTime := true |}]
    | Err _ => []
    end.
Proof.
  unfold fn. rewrite !bind_run.
  destruct (clear_tmp imp api (init s)) as [[u1|e1] w1] eqn:E1; simpl.
  - assert (H1 : dispatch_args "onGenerateFiles" (log w1) = []).
    { apply (staged_dispatch_args "onGenerateFiles" _ _ _ _ _ _
               (staged_clear_tmp api) E1); cbv; lia. }
    rewrite !bind_run.
    destruct (check_pkg api w1) as [[u2|e2] w2] eqn:E2; simpl.
    + assert (H2 : dispatch_args "onGenerateFiles" (log w2) = []).
      { rewrite <- H1.
        apply (staged_dispatch_args "onGenerateFiles" _ _ _ _ _ _
                 (staged_check_pkg api) E2); cbv; lia. }
      rewrite bind_run.
      destruct (generate_files api w2) as [[u3|e3] w3] eqn:E3; simpl.
      * apply generate_files_journal in E3. simpl in E3.
        match goal with |- context [?m w3] =>
          destruct (m w3) as [r w'] eqn:E4 end.
        simpl.
        rewrite (staged_dispatch_args "onGenerateFiles" _ _ _ _ _ _
                   (staged_after_generate api) E4) by (cbv; lia).
        rewrite E3. unfold dispatch_args in *.
        rewrite flat_map_app, H2. reflexivity.
      * apply generate_files_journal in E3. simpl in E3.
        rewrite E3. unfold dispatch_args in *.
        rewrite flat_map_app, H2. reflexivity.
    + rewrite <- H1.
      apply (staged_dispatch_args "onGenerateFiles" _ _ _ _ _ _
               (staged_check_pkg api) E2); cbv; lia.
  - apply (staged_dispatch_args "onGenerateFiles" _ _ _ _ _ _
             (staged_clear_tmp api) E1); cbv; lia.
Qed.

(** *** Failures *)

(** A call that throws is entered in the journal, directly followed by
    what it threw; a call that returns only enters itself. *)
Lemma call_throws {A} (ev : Effect) (m : Ext A) (w : World) e s' :
  m (ext w) = (Err e, s') ->
  call ev m w = (Err e, {| ext := s'; log := log w ++ [ev; EThrown e] |}).
Proof.
  intros E. unfold call, emit, lift. rewrite bind_run. simpl. rewrite E.
  rewrite <- app_assoc. reflexivity.
Qed.

Lemma call_returns {A} (ev : Effect) (m : Ext A) (w : World) a s' :
  m (ext w) = (Ok a, s') ->
  call ev m w = (Ok a, {| ext := s'; log := log w ++ [ev] |}).
Proof.
  intros E. unfold call, emit, lift. rewrite bind_run. simpl. rewrite E.
  reflexivity.
Qed.

(** Modelled dispatch: a throwing handler ends it, with the store the
    handler left; the handlers after it do not run. *)
Lemma applyModify_throws {T A} (before after : list (ModifyHandler T A))
      (h : ModifyHandler T A) (initialValue acc : T) (args : A) (s s1 s' : S) e :
  applyModify before initialValue args s = (Ok acc, s1) ->
  h acc args s1 = (Err e, s') ->
  applyModify (before ++ h :: after) initialValue args s = (Err e, s').
Proof.
  revert initialValue s.
  induction before as [|h0 before IH]; simpl; intros initialValue s E Eh.
  - injection E as <- <-. rewrite bind_run, Eh. reflexivity.
  - rewrite bind_run in *.
    destruct (h0 initialValue args s) as [[acc0|e0] s0]; [|discriminate E].
    apply IH; assumption.
Qed.





(** *** The HTML stage *)

(** Unfold the stages and the monad down to the external calls. *)
Ltac expose_in E :=
  cbv beta iota zeta delta
      [fn clear_tmp check_pkg generate_files generate compose_build_options
       execute_build measure_sizes generate_html collect_html_files
       write_html_files html_complete bind call emit lift ret fail of_result
       applyEvent applyModify] in E.

(** Case on the outcome of the next external call of [E]; a failing call
    contradicts a run that returned. *)
Ltac next_call E :=
  expose_in E;
  match type of E with
  | context [match ?m (ext ?w) with _ => _ end] =>
      let Eq := fresh "Ecall" in
      destruct (m (ext w)) as [[? | ?] ?] eqn:Eq; [|discriminate E]
  | context [match ?m ?s with _ => _ end] =>
      let Eq := fresh "Ecall" in
      destruct (m s) as [[? | ?] ?] eqn:Eq; [|discriminate E]
  end;
  cbn [ext log] in E.

(** C4: outside multi-page mode and with no [modifyExportHTMLFiles]
    handler, a completed HTML stage yields the single document
    [index.html] whose content is what [getMarkup] returned for the final
    markup arguments, built from what [getAssetsMap] (not called on vite)
    and [getMarkupArgs] returned on the stores they were run on; it then
    creates the directory of [resolve(absOutputPath, 'index.html')] and
    writes that content to that path, each call on the store the call
    before it left, and the store of the write is the one the stage
    leaves.  Nothing else is rendered, dispatched or written. *)
Theorem default_html_document (api : Api) (opts : Opts) (stats : Any)
        (w : World) files w' :
  config_mpa (api_config api) = false ->
  h_modifyExportHTMLFiles (api_hooks api) = [] ->
  generate_html imp api opts stats w = (Ok files, w') ->
  exists assetsMap args content s0 s1 s2 s3,
    let final := finalMarkUpArgs api opts assetsMap args in
    let file := resolve imp (api_absOutputPath api) "index.html" in
    files = [ {| html_path := "index.html"; html_content := content |} ]
    /\ (if config_vite (api_config api)
        then assetsMap = ∅ /\ s0 = ext w
        else getAssetsMap imp stats (config_publicPath (api_config api))
               (ext w)
             = (Ok assetsMap, s0))
    /\ getMarkupArgs imp api s0 = (Ok args, s1)
    /\ getMarkup imp final s1 = (Ok content, s2)
    /\ mkdirpSync imp (dirname imp file) s2 = (Ok tt, s3)
    /\ writeFileSync imp file content s3 = (Ok tt, ext w')
    /\ log w' = log w
                ++ (if config_vite (api_config api) then []
                    else [EGetAssetsMap])
                ++ [ EGetMarkupArgs;
                     EGetMarkup final;
                     EApplyPlugins "modifyExportHTMLFiles" (ArgsExportHTML final);
                     EMkdirp (dirname imp file);
                     EWriteFile file content;
                     ELoggerEvent "Build index.html" ]
    /\ writes (log w') = writes (log w) ++ [(file, content)]
    /\ mkdirs (log w') = mkdirs (log w) ++ [dirname imp file].
Proof.
  intros Hmpa Hh E. unfold generate_html in E. rewrite Hmpa in E.
  cbn [negb] in E. unfold collect_html_files in E. rewrite Hh in E.
  destruct (config_vite (api_config api)) eqn:Hvite.
  - next_call E. next_call E. next_call E. next_call E.
    expose_in E. injection E as <- <-. cbn [log ext].
    repeat match goal with u : unit |- _ => destruct u end.
    match goal with
    | H1 : getMarkupArgs imp api ?s0 = (Ok ?a, ?s1),
      H2 : getMarkup imp _ _ = (Ok ?c, ?s2),
      H3 : mkdirpSync imp _ _ = (Ok tt, ?s3),
      H4 : writeFileSync imp _ _ _ = (Ok tt, _) |- _ =>
        exists ∅, a, c, s0, s1, s2, s3; cbv zeta;
        split; [reflexivity|]; split; [split; reflexivity|];
        split; [exact H1|]; split; [exact H2|]; split; [exact H3|];
        split; [exact H4|]
    end.
    split; [rewrite <- !app_assoc; reflexivity|].
    unfold writes, mkdirs. rewrite !flat_map_app. simpl.
    rewrite !app_nil_r. split; reflexivity.
  - next_call E. next_call E. next_call E. next_call E. next_call E.
    expose_in E. injection E as <- <-. cbn [log ext].
    repeat match goal with u : unit |- _ => destruct u end.
    match goal with
    | H0 : getAssetsMap imp _ _ _ = (Ok ?m, ?s0),
      H1 : getMarkupArgs imp api _ = (Ok ?a, ?s1),
      H2 : getMarkup imp _ _ = (Ok ?c, ?s2),
      H3 : mkdirpSync imp _ _ = (Ok tt, ?s3),
      H4 : writeFileSync imp _ _ _ = (Ok tt, _) |- _ =>
        exists m, a, c, s0, s1, s2, s3; cbv zeta;
        split; [reflexivity|]; split; [exact H0|];
        split; [exact H1|]; split; [exact H2|]; split; [exact H3|];
        split; [exact H4|]
    end.
    split; [rewrite <- !app_assoc; reflexivity|].
    unfold writes, mkdirs. rewrite !flat_map_app. simpl.
    rewrite !app_nil_r. split; reflexivity.
Qed.

(** *** A complete run *)

(** Use the totality of the next external call of [E]. *)
Ltac total_call E :=
  expose_in E; cbn [ext log] in E;
  match type of E with
  | context [match ?m ?s with _ => _ end] =>
      let T := fresh "T" in
      assert (T : total m) by auto;
      let Eq := fresh "Ecall" in
      destruct (T s) as (? & ? & Eq); rewrite Eq in E; clear T
  end.

Lemma runtime_17_1 (api : Api) :
  api_react_version api = Some "17.1.0" ->
  shouldUseAutomaticRuntime api = Ok true.
Proof. intros H. unfold shouldUseAutomaticRuntime. rewrite H. reflexivity. Qed.

(** Without a handler under [modifyUniBundler] the dispatch yields its
    absent initial value, and [bundler.build] throws before any build,
    report or write. *)
Lemma no_bundler_no_build (api : Api) (s : S) :
  h_modifyUniBundler (api_hooks api) = [] ->
  exists e,
    fst (fn imp api (init s)) = Err e
    /\ builds (log (snd (fn imp api (init s)))) = []
    /\ reports (log (snd (fn imp api (init s)))) = []
    /\ writes (log (snd (fn imp api (init s)))) = [].
Proof.
  intros Hh. destruct (fn imp api (init s)) as [r w'] eqn:E. simpl.
  pose proof E as E'. rewrite fn_split in E'.
  destruct (before_build imp api (init s)) as [[[opts bundler]|e] w4] eqn:E4.
  - assert (Hb : bundler = undefined).
    { unfold before_build in E4. rewrite !bind_run in E4.
      destruct (clear_tmp imp api (init s)) as [[?|?] ?]; [|discriminate E4].
      rewrite !bind_run in E4.
      destruct (check_pkg api _) as [[?|?] ?]; [|discriminate E4].
      rewrite !bind_run in E4.
      destruct (generate_files api _) as [[?|?] ?]; [|discriminate E4].
      unfold compose_build_options in E4. rewrite Hh in E4.
      do 5 (rewrite bind_run in E4;
            match type of E4 with
            | context [match ?m ?w with _ => _ end] =>
                destruct (m w) as [[?|?] ?]; [|discriminate E4]
            end).
      cbv [bind call emit lift ret applyModify] in E4.
      injection E4 as _ <- _. reflexivity. }
    subst bundler. unfold after_compose in E'. rewrite bind_run in E'.
    simpl in E'. injection E' as <- <-.
    destruct (staged_before_build api _ _ _ E4) as (body & Hl & Hc).
    eexists. split; [reflexivity|]. simpl. rewrite Hl. simpl.
    unfold builds, reports, writes. rewrite !flat_map_app. simpl.
    rewrite !app_nil_r.
    repeat split.
    + apply (flat_map_outside _ 9 0 8); [apply builds_rank | exact Hc | right; lia].
    + apply (flat_map_outside _ 13 0 8); [apply reports_rank | exact Hc | right; lia].
    + apply (flat_map_outside _ 18 0 8); [apply writes_rank | exact Hc | right; lia].
  - injection E' as <- <-.
    destruct (staged_before_build api _ _ _ E4) as (body & Hl & Hc).
    eexists. split; [reflexivity|]. simpl in Hl. rewrite Hl.
    unfold builds, reports, writes. rewrite !flat_map_app. simpl.
    rewrite !app_nil_r.
    repeat split.
    + apply (flat_map_outside _ 9 0 8); [apply builds_rank | exact Hc | right; lia].
    + apply (flat_map_outside _ 13 0 8); [apply reports_rank | exact Hc | right; lia].
    + apply (flat_map_outside _ 18 0 8); [apply writes_rank | exact Hc | right; lia].
Qed.

(** C3 (as the code has it): with no [vite], [mako] or [mpa] flag, react
    17.1.0, no handler on any key but one under [modifyUniBundler] that
    returns the bundler, and helpers and bundler that return, the run
    completes.  The outside world is asked, each call on the store the call
    before it left: to remove the temporary directory, for the babel
    options, the handler for the bundler, that bundler to build the
    options literal (automatic runtime, the shape of the traditional
    backend), for the sizes of the output folder and the report on them
    with the build's result, for the assets map of that result, the markup
    arguments and the markup, to create the directory of [index.html]
    under the output path and to write the markup there; the store of that
    write is the one the run leaves.  The journal has one build, one
    report and one write, and no failure. *)
Theorem single_bundler_plugin_run (api : Api)
        (h : ModifyHandler (Js Bundler) UniBundlerArgs) (b : Bundler) (s : S) :
  config_vite (api_config api) = false ->
  config_mako (api_config api) = false ->
  config_mpa (api_config api) = false ->
  api_react_version api = Some "17.1.0" ->
  api_hooks api = only_bundler_hook h ->
  (forall acc args s0, exists s1, h acc args s0 = (Ok (val b), s1)) ->
  (forall o, total (build b o)) ->
  helpers_total imp api ->
  exists w' o content,
    fn imp api (init s) = (Ok tt, w')
    /\ builds (log w') = [o]
    /\ opts_react_runtime o = automatic
    /\ opts_modifyViteConfig o = None
    /\ opts_babelPreset o <> None
    /\ opts_chainWebpack o = Some (chainWebpack api)
    /\ opts_modifyWebpackConfig o = Some (modifyWebpackConfig api)
    /\ writes (log w')
       = [(resolve imp (api_absOutputPath api) "index.html", content)]
    /\ length (reports (log w')) = 1%nat
    /\ thrown (log w') = []
    /\ exists babel stats previousFileSizes assetsMap args
              s1 s2 s3 s4 s5 s6 s7 s8 s9 s10,
         let folder :=
           resolve imp (opts_cwd o)
             (str_or (config_outputPath (opts_config o))
                     (DEFAULT_OUTPUT_PATH imp)) in
         let file := resolve imp (api_absOutputPath api) "index.html" in
         o = compose_opts imp api true babel
               {[ "umi" := join imp (api_absTmpPath api) "umi.ts" ]}
         /\ rimraf_sync imp (api_absTmpPath api) s = (Ok tt, s1)
         /\ getBabelOpts imp api s1 = (Ok babel, s2)
         /\ h undefined {| ub_bundler := api_bundler api; ub_opts := o |} s2
            = (Ok (val b), s3)
         /\ build b o s3 = (Ok stats, s4)
         /\ measureFileSizesBeforeBuild imp folder s4
            = (Ok previousFileSizes, s5)
         /\ printFileSizesAfterBuild imp stats previousFileSizes folder s5
            = (Ok tt, s6)
         /\ reports (log w') = [folder]
         /\ getAssetsMap imp stats (config_publicPath (api_config api)) s6
            = (Ok assetsMap, s7)
         /\ getMarkupArgs imp api s7 = (Ok args, s8)
         /\ getMarkup imp (finalMarkUpArgs api o assetsMap args) s8
            = (Ok content, s9)
         /\ mkdirpSync imp (dirname imp file) s9 = (Ok tt, s10)
         /\ writeFileSync imp file content s10 = (Ok tt, ext w').
Proof.
  intros Hvite Hmako Hmpa Hver Hhooks Hh Hbuild
         (Hrim & Hbabel & Hmeasure & Hprint & Hassets & Hmargs & Hmarkup
          & Hmkdir & Hwrite).
  destruct (fn imp api (init s)) as [r w'] eqn:E.
  expose_in E.
  rewrite Hhooks, Hvite, Hmako, Hmpa, (runtime_17_1 api Hver) in E.
  cbn [only_bundler_hook h_onCheckPkgJSON h_onGenerateFiles h_modifyEntry
       h_onBeforeCompiler h_modifyUniBundlerOpts h_modifyUniBundler
       h_modifyExportHTMLFiles h_onBuildHtmlComplete negb andb] in E.
  total_call E. total_call E.
  expose_in E. cbn [ext log] in E.
  match type of E with context [h ?acc ?args ?s0] =>
    destruct (Hh acc args s0) as (? & Eh); rewrite Eh in E end.
  do 8 total_call E.
  expose_in E. cbn [ext log] in E. injection E as <- <-.
  repeat match goal with u : unit |- _ => destruct u end.
  do 3 eexists. split; [reflexivity|]. cbn [log ext].
  split; [reflexivity|].
  split; [reflexivity|].
  split; [unfold compose_opts; cbn; rewrite Hvite; reflexivity|].
  split; [unfold compose_opts; cbn; rewrite Hvite; discriminate|].
  split; [unfold compose_opts; cbn -[chainWebpack]; rewrite Hvite; reflexivity|].
  split; [unfold compose_opts; cbn -[modifyWebpackConfig]; rewrite Hvite;
          reflexivity|].
  split; [reflexivity|].
  split; [reflexivity|].
  split; [reflexivity|].
  cbn [init ext] in *.
  match goal with
  | H1 : rimraf_sync imp _ _ = (Ok tt, ?s1),
    H2 : getBabelOpts imp api _ = (Ok ?babel, ?s2),
    H4 : build b _ ?s3 = (Ok ?stats, ?s4),
    H5 : measureFileSizesBeforeBuild imp _ _ = (Ok ?prev, ?s5),
    H6 : printFileSizesAfterBuild imp _ _ _ _ = (Ok tt, ?s6),
    H7 : getAssetsMap imp _ _ _ = (Ok ?am, ?s7),
    H8 : getMarkupArgs imp api _ = (Ok ?args, ?s8),
    H9 : getMarkup imp _ _ = (Ok _, ?s9),
    H10 : mkdirpSync imp _ _ = (Ok tt, ?s10),
    H11 : writeFileSync imp _ _ _ = (Ok tt, _) |- _ =>
      exists babel, stats, prev, am, args, s1, s2, s3, s4, s5, s6, s7, s8, s9, s10;
      cbv zeta;
      split; [reflexivity|]; split; [exact H1|]; split; [exact H2|];
      split; [exact Eh|]; split; [exact H4|]; split; [exact H5|];
      split; [exact H6|]; split; [reflexivity|]; split; [exact H7|];
      split; [exact H8|]; split; [exact H9|]; split; [exact H10|]; exact H11
  end.
Qed.

(** ** Beyond the stated properties *)

(** *** The order of the hooks *)

Lemma keys_ret {A} (a : A) : keys_upto [] (ret a : P A).
Proof.
  intros w r w' E. injection E as <- <-. exists []. rewrite app_nil_r.
  split; [reflexivity|]. split; [exists []; reflexivity | reflexivity].
Qed.

Lemma keys_fail {A} (e : Failure) : keys_upto [] (fail e : P A).
Proof.
  intros w r w' E. injection E as <- <-. exists []. simpl.
  unfold dispatched_keys. rewrite flat_map_app. simpl.
  split; [reflexivity|]. split; [exists []; reflexivity | reflexivity].
Qed.

Lemma keys_of_result {A} (x : Result A) : keys_upto [] (of_result x : P A).
Proof. destruct x; [apply keys_ret | apply keys_fail]. Qed.

Lemma keys_lift {A} (m : Ext A) : keys_upto [] (lift m : P A).
Proof.
  intros w r w' E. unfold lift in E.
  destruct (m (ext w)) as [[a|e] s1]; injection E as <- <-; exists [];
    simpl; unfold dispatched_keys; rewrite ?flat_map_app; simpl;
    (split; [first [reflexivity | rewrite app_nil_r; reflexivity]|]);
    (split; [exists []; reflexivity | reflexivity]).
Qed.

Lemma keys_bind (f1 f2 full : list string) {A B} (m : P A) (k : A -> P B) :
  keys_upto f1 m -> (forall a, keys_upto f2 (k a)) -> full = f1 ++ f2 ->
  keys_upto full (bind m k).
Proof.
  intros Hm Hk -> w r w' E. rewrite bind_run in E.
  destruct (m w) as [[a|e] w1] eqn:Em.
  - destruct (Hm _ _ _ Em) as (k1 & Hl1 & _ & Hf1).
    destruct (Hk a _ _ _ E) as (k2 & Hl2 & (rest & Hr2) & Hf2).
    rewrite (Hf1 a eq_refl) in Hl1. exists (f1 ++ k2).
    split; [rewrite Hl2, Hl1, app_assoc; reflexivity|]. split.
    + exists rest. rewrite Hr2, app_assoc. reflexivity.
    + intros b ->. rewrite (Hf2 b eq_refl). reflexivity.
  - injection E as <- <-.
    destruct (Hm _ _ _ Em) as (k1 & Hl1 & (rest & Hr1) & _).
    exists k1. split; [exact Hl1|]. split.
    + exists (rest ++ f2). rewrite Hr1, app_assoc. reflexivity.
    + intros b Hb. discriminate Hb.
Qed.

Lemma keys_emit (e : Effect) :
  match e with EApplyPlugins _ _ => False | _ => True end ->
  keys_upto [] (emit e).
Proof.
  intros He w r w' E. injection E as <- <-. exists []. simpl.
  unfold dispatched_keys. rewrite flat_map_app. destruct e; try contradiction;
    simpl; (split; [reflexivity|]);
    (split; [exists []; reflexivity | reflexivity]).
Qed.

Lemma keys_call {A} (e : Effect) (m : Ext A) :
  match e with EApplyPlugins _ _ => False | _ => True end ->
  keys_upto [] (call e m).
Proof.
  intros He. unfold call.
  apply (keys_bind [] []); [apply keys_emit; exact He | | reflexivity].
  intros _. apply keys_lift.
Qed.

Lemma keys_dispatch {A} (key : string) (a : @ArgsView S Any) (m : Ext A) :
  keys_upto [key] (call (EApplyPlugins key a) m).
Proof.
  unfold call. apply (keys_bind [key] []); [ | | reflexivity].
  - intros w r w' E. injection E as <- <-. exists [key]. simpl.
    unfold dispatched_keys. rewrite flat_map_app. simpl.
    split; [reflexivity|]. split; [exists []; reflexivity | reflexivity].
  - intros _. apply keys_lift.
Qed.

Ltac keys_step :=
  lazymatch goal with
  | |- keys_upto _ (bind _ _) =>
      eapply keys_bind; [ | intros ? | ]
  | |- keys_upto _ (call (EApplyPlugins _ _) _) => apply keys_dispatch
  | |- keys_upto _ (call _ _) => apply keys_call; exact I
  | |- keys_upto _ (emit _) => apply keys_emit; exact I
  | |- keys_upto _ (of_result _) => apply keys_of_result
  | |- keys_upto _ (ret _) => apply keys_ret
  | |- keys_upto _ (fail _) => apply keys_fail
  | |- keys_upto _ (let '(_, _) := ?p in _) => destruct p
  | |- _ = _ => reflexivity
  end.

Lemma keys_clear_tmp (api : Api) : keys_upto [] (clear_tmp imp api).
Proof. unfold clear_tmp. repeat keys_step. Qed.

Lemma keys_check_pkg (api : Api) :
  keys_upto ["onCheckPkgJSON"] (check_pkg api).
Proof. unfold check_pkg. repeat keys_step. Qed.

Lemma keys_generate_files (api : Api) :
  keys_upto ["onGenerateFiles"] (generate_files api).
Proof. unfold generate_files, generate. repeat keys_step. Qed.

Lemma keys_compose_build_options (api : Api) :
  keys_upto ["modifyEntry"; "onBeforeCompiler"; "modifyUniBundlerOpts";
             "modifyUniBundler"]
    (compose_build_options imp api).
Proof. unfold compose_build_options. repeat keys_step. Qed.

Lemma keys_execute_build (bundler : Js Bundler) (opts : Opts) :
  keys_upto [] (execute_build bundler opts).
Proof. unfold execute_build. destruct bundler; repeat keys_step. Qed.

Lemma keys_measure_sizes (api : Api) (opts : Opts) (stats : Any) :
  keys_upto [] (measure_sizes imp api opts stats).
Proof.
  unfold measure_sizes.
  destruct (negb (config_vite (api_config api)) && negb (config_mako (api_config api)));
    repeat keys_step.
Qed.

Lemma keys_write_html_files (api : Api) htmlFiles :
  keys_upto [] (write_html_files imp api htmlFiles).
Proof.
  induction htmlFiles as [|f rest IH]; simpl.
  - apply keys_ret.
  - apply (keys_bind [] []); [repeat keys_step | intros _ | reflexivity].
    apply (keys_bind [] []); [repeat keys_step | intros _ | reflexivity].
    apply (keys_bind [] []); [repeat keys_step | intros _ | reflexivity].
    exact IH.
Qed.

Lemma keys_generate_html (api : Api) (opts : Opts) (stats : Any) :
  keys_upto (if config_mpa (api_config api) then []
             else ["modifyExportHTMLFiles"])
    (generate_html imp api opts stats).
Proof.
  unfold generate_html. destruct (config_mpa (api_config api)); simpl.
  - apply keys_ret.
  - apply (keys_bind ["modifyExportHTMLFiles"] []); [ | intros files | reflexivity].
    + unfold collect_html_files.
      destruct (config_vite (api_config api)); repeat keys_step.
    + apply (keys_bind [] []);
        [apply keys_write_html_files | intros _; apply keys_ret | reflexivity].
Qed.

Lemma keys_html_complete (api : Api) (opts : Opts) htmlFiles :
  keys_upto ["onBuildHtmlComplete"] (html_complete api opts htmlFiles).
Proof. unfold html_complete. repeat keys_step. Qed.

Lemma keys_fn (api : Api) : keys_upto (hook_order api) (fn imp api).
Proof.
  unfold fn, hook_order.
  eapply keys_bind; [apply keys_clear_tmp | intros _ | reflexivity].
  eapply keys_bind; [apply keys_check_pkg | intros _ | reflexivity].
  eapply keys_bind; [apply keys_generate_files | intros _ | reflexivity].
  eapply keys_bind;
    [apply keys_compose_build_options | intros [opts bundler] | reflexivity].
  eapply keys_bind; [apply keys_execute_build | intros stats | reflexivity].
  eapply keys_bind; [apply keys_measure_sizes | intros _ | reflexivity].
  eapply keys_bind; [apply keys_generate_html | intros htmlFiles | ].
  - apply keys_html_complete.
  - reflexivity.
Qed.

(** A key that was not dispatched has no dispatch arguments. *)
Lemma dispatch_args_absent (key : string) (j : list Effect) :
  ~ In key (dispatched_keys j) -> dispatch_args key j = [].
Proof.
  induction j as [|e j IH]; [reflexivity|].
  unfold dispatched_keys, dispatch_args. cbn [flat_map]. intros Hn.
  destruct e; cbn [app] in *; try (apply IH; exact Hn).
  destruct (String.eqb_spec key0 key) as [-> | Hne].
  - exfalso. apply Hn. left. reflexivity.
  - apply IH. intros Hin. apply Hn. right. exact Hin.
Qed.

(** The statements of [fn] dispatch none of the closures' keys. *)
Lemma closure_keys_not_dispatched (api : Api) (s : S) (key : string) :
  In key closure_keys ->
  ~ In key (dispatched_keys (log (snd (fn imp api (init s))))).
Proof.
  intros Hk Hin.
  destruct (fn imp api (init s)) as [r w'] eqn:E. simpl in Hin.
  destruct (keys_fn api _ _ _ E) as (ks & Hl & (rest & Hr) & _).
  simpl in Hl. rewrite Hl in Hin.
  assert (Hh : In key (hook_order api))
    by (rewrite Hr; apply in_or_app; left; exact Hin).
  unfold hook_order in Hh. unfold closure_keys in Hk.
  destruct (config_mpa (api_config api)); simpl in Hh, Hk;
    repeat match goal with
           | H : _ \/ _ |- _ => destruct H
           | H : False |- _ => destruct H
           end;
    subst; discriminate.
Qed.


(** *** One pass *)

(** In a chain, a projection that reads one call site outside the
    [forEach] has at most one element. *)
Lemma flat_map_once {X} (g : Effect -> list X) (n lo hi : nat)
      (j : list Effect) :
  (forall e, rank e <> n -> g e = []) ->
  (forall e, (length (g e) <= 1)%nat) ->
  n <> 18%nat -> chain lo hi j ->
  (length (flat_map g j) <= 1)%nat.
Proof.
  intros Hg H1 Hn. revert lo.
  induction j as [|e j IH]; simpl; intros lo Hc; [lia|].
  destruct Hc as (Ha & Hb & Hc). rewrite length_app.
  destruct (Nat.eq_dec (rank e) n) as [He | He].
  - rewrite (flat_map_outside g n _ _ j Hg Hc).
    + specialize (H1 e). simpl. lia.
    + left. rewrite He. unfold next_rank.
      destruct (Nat.eqb_spec n 18); [contradiction | lia].
  - rewrite (Hg e He). simpl. apply (IH _ Hc).
Qed.

Lemma key_rank_loop (key : string) : key_rank key <> 18%nat.
Proof.
  unfold key_rank.
  repeat match goal with
         | |- context [(?a =? ?b)%string] => destruct (a =? b)%string
         end; lia.
Qed.

(** X2: the statements of [fn] pass each of their call sites outside the
    [forEach] at most once: [fn] itself dispatches no hook key twice, and
    calls [bundler.build], the two size helpers, [getMarkup] and
    [rimraf.sync] at most once.  The keys of the closures handed to the
    bundler are never dispatched by [fn] itself; how often the bundler
    calls those closures is not bounded by [fn]. *)
Theorem single_pass (api : Api) (s : S) :
  let j := log (snd (fn imp api (init s))) in
  (forall key, (length (dispatch_args key j) <= 1)%nat)
  /\ (length (builds j) <= 1)%nat
  /\ (length (measures j) <= 1)%nat
  /\ (length (reports j) <= 1)%nat
  /\ (length (renders j) <= 1)%nat
  /\ (length (removals j) <= 1)%nat
  /\ (forall key, In key closure_keys -> dispatch_args key j = []).
Proof.
  cbv zeta. split; [|split; [|split; [|split; [|split; [|split]]]]];
    [| | | | | |
     intros key Hk; apply dispatch_args_absent;
     apply closure_keys_not_dispatched; exact Hk].
  all: destruct (fn imp api (init s)) as [r w'] eqn:E; simpl;
    pose proof (fn_journal_chain _ _ _ _ E) as Hc.
  - intros key. unfold dispatch_args.
    apply (flat_map_once _ (key_rank key) 0 20);
      [apply dispatch_rank | | apply key_rank_loop | exact Hc].
    intros []; simpl; try lia. destruct (_ =? _)%string; simpl; lia.
  - apply (flat_map_once _ 9 0 20);
      [apply builds_rank | intros []; simpl; lia | lia | exact Hc].
  - apply (flat_map_once _ 10 0 20);
      [intros []; simpl; congruence | intros []; simpl; lia | lia | exact Hc].
  - apply (flat_map_once _ 13 0 20);
      [apply reports_rank | intros []; simpl; lia | lia | exact Hc].
  - apply (flat_map_once _ 16 0 20);
      [intros []; simpl; congruence | intros []; simpl; lia | lia | exact Hc].
  - apply (flat_map_once _ 1 0 20);
      [intros []; simpl; congruence | intros []; simpl; lia | lia | exact Hc].
Qed.

(** *** The temporary directory *)

Lemma staged_after_clear (api : Api) :
  staged 2 19
    (check_pkg api >>
     generate_files api >>
     do '(opts, bundler) <- compose_build_options imp api in
     after_compose imp api opts bundler).
Proof.
  apply (staged_bind 2 2 3 19); [apply staged_check_pkg | | cbn; lia ..].
  intros _.
  apply (staged_bind 3 3 4 19); [apply staged_generate_files | | cbn; lia ..].
  intros _. apply staged_after_generate.
Qed.

(** X3: every run starts by announcing the version and removing
    [api.paths.absTmpPath]; nothing else is ever removed, and when the
    removal throws the run ends there, before any hook. *)
Theorem tmp_cleared_first (api : Api) (s : S) :
  (exists rest,
      log (snd (fn imp api (init s)))
      = ELoggerInfo ("Umi v" ++ api_umi_version api)
          :: ERimraf (api_absTmpPath api) :: rest
      /\ removals rest = [])
  /\ match rimraf_sync imp (api_absTmpPath api) s with
     | (Err e, s') =>
         fn imp api (init s)
         = (Err e,
            {| ext := s';
               log := [ ELoggerInfo ("Umi v" ++ api_umi_version api);
                        ERimraf (api_absTmpPath api); EThrown e ] |})
     | (Ok _, _) => True
     end.
Proof.
  destruct (fn imp api (init s)) as [r w'] eqn:E. simpl.
  unfold fn in E. rewrite bind_run in E.
  unfold clear_tmp, call, emit, lift in E. rewrite !bind_run in E.
  simpl in E.
  destruct (rimraf_sync imp (api_absTmpPath api) s) as [[u|e] s1]; simpl in E.
  - split; [|exact I].
    destruct (staged_after_clear api _ _ _ E) as (body & Hl & Hc).
    simpl in Hl. exists (body ++ outcome_tail r). split; [exact Hl|].
    unfold removals. rewrite flat_map_app.
    rewrite (flat_map_outside _ 1 2 19 body); [| | exact Hc | left; lia].
    + destruct r; reflexivity.
    + intros []; simpl; congruence.
  - injection E as <- <-. split; [|reflexivity].
    exists [EThrown e]. split; reflexivity.
Qed.

(** *** Writing the documents *)

(** The [forEach] asks of the file system what [write_all] does: its
    outcome and the store it leaves are those of the [mkdirpSync] and
    [writeFileSync] calls made for the documents in turn. *)
Lemma write_html_files_store (api : Api) (htmlFiles : list HtmlFile)
      (w : World) :
  (fst (write_html_files imp api htmlFiles w),
   ext (snd (write_html_files imp api htmlFiles w)))
  = write_all imp api htmlFiles (ext w).
Proof.
  revert w. induction htmlFiles as [|f rest IH]; intros w; [reflexivity|].
  cbn [write_html_files write_all target fst snd].
  unfold call, emit, lift. rewrite !bind_run. cbn [ext log].
  destruct (mkdirpSync imp _ (ext w)) as [[u1|e1] s1]; cbn [ext log fst snd];
    [|reflexivity].
  rewrite !bind_run. cbn [ext log].
  destruct (writeFileSync imp _ _ s1) as [[u2|e2] s2]; cbn [ext log fst snd];
    [|reflexivity].
  rewrite !bind_run. cbn [ext log]. rewrite IH. reflexivity.
Qed.

(** X8: the [forEach] of lines 215-221 takes the documents in order.  Its
    outcome and the store it leaves are those of calling, for each
    document in turn, [mkdirpSync] on the directory of its target and then
    [writeFileSync] on the target, up to the first call that throws.  The
    calls it has journalled agree: the files written are the targets of a
    first part of the list, all of them when it returns, and the directory
    of each target is created before the write. *)
Theorem documents_written_in_order (api : Api) (htmlFiles : list HtmlFile)
        (w : World) :
  let run := write_html_files imp api htmlFiles w in
  (fst run, ext (snd run)) = write_all imp api htmlFiles (ext w)
  /\ exists n m,
    writes (log (snd run))
    = writes (log w) ++ firstn n (map (target imp api) htmlFiles)
    /\ mkdirs (log (snd run))
       = mkdirs (log w)
         ++ firstn m (map (fun f => dirname imp (fst (target imp api f)))
                        htmlFiles)
    /\ (n <= m <= Datatypes.S n)%nat
    /\ (m <= length htmlFiles)%nat
    /\ match fst run with
       | Ok _ => n = length htmlFiles
       | Err _ => True
       end.
Proof.
  cbn zeta. split; [apply write_html_files_store|].
  revert w. induction htmlFiles as [|f rest IH]; intros w; cbn zeta.
  - exists 0%nat, 0%nat. simpl. rewrite !app_nil_r. repeat split; lia.
  - destruct (write_html_files imp api (f :: rest) w) as [r w'] eqn:E.
    cbn [fst snd]. cbn [write_html_files] in E.
    unfold call, emit, lift in E. rewrite !bind_run in E. cbn [ext log] in E.
    destruct (mkdirpSync imp _ (ext w)) as [[u1|e1] s1]; cbn [ext log] in E.
    + rewrite !bind_run in E. cbn [ext log] in E.
      destruct (writeFileSync imp _ _ s1) as [[u2|e2] s2]; cbn [ext log] in E.
      * rewrite !bind_run in E. cbn [ext log] in E.
        match type of E with write_html_files imp api rest ?w2 = _ =>
          destruct (IH w2) as (n & m & Hw & Hm & Hnm & Hlen & Hok) end.
        rewrite E in Hw, Hm, Hok. cbn [fst snd log] in Hw, Hm, Hok.
        exists (Datatypes.S n), (Datatypes.S m).
        rewrite Hw, Hm. unfold writes, mkdirs. rewrite !flat_map_app.
        simpl. rewrite !app_nil_r, <- !app_assoc. simpl.
        repeat split; try lia.
        destruct r; [lia | exact I].
      * injection E as <- <-. exists 1%nat, 1%nat. cbn [log].
        unfold writes, mkdirs. rewrite !flat_map_app.
        simpl. rewrite !app_nil_r. repeat split; lia.
    + injection E as <- <-. exists 0%nat, 1%nat. cbn [log].
      unfold writes, mkdirs. rewrite !flat_map_app.
      simpl. rewrite !app_nil_r. repeat split; lia.
Qed.

(** *** The file sizes *)

Lemma staged_measures (lo hi : nat) {A} (m : P A) (w : World) r w' :
  staged lo hi m -> m w = (r, w') -> (10 < lo \/ hi < 10)%nat ->
  measures (log w') = measures (log w).
Proof.
  intros Hs E Hn. unfold measures.
  apply (staged_flat_map _ 10 lo hi m w r w' Hs E); [intros []; simpl; congruence | exact Hn | lia].
Qed.

Lemma staged_reports (lo hi : nat) {A} (m : P A) (w : World) r w' :
  staged lo hi m -> m w = (r, w') -> (13 < lo \/ hi < 13)%nat ->
  reports (log w') = reports (log w).
Proof.
  intros Hs E Hn. unfold reports.
  apply (staged_flat_map _ 13 lo hi m w r w' Hs E); [apply reports_rank | exact Hn | lia].
Qed.

Lemma staged_writes (lo hi : nat) {A} (m : P A) (w : World) r w' :
  staged lo hi m -> m w = (r, w') -> (18 < lo \/ hi < 18)%nat ->
  writes (log w') = writes (log w).
Proof.
  intros Hs E Hn. unfold writes.
  apply (staged_flat_map _ 18 lo hi m w r w' Hs E); [apply writes_rank | exact Hn | lia].
Qed.

Lemma staged_builds (lo hi : nat) {A} (m : P A) (w : World) r w' :
  staged lo hi m -> m w = (r, w') -> (9 < lo \/ hi < 9)%nat ->
  builds (log w') = builds (log w).
Proof.
  intros Hs E Hn. unfold builds.
  apply (staged_flat_map _ 9 lo hi m w r w' Hs E); [apply builds_rank | exact Hn | lia].
Qed.

Lemma staged_renders (lo hi : nat) {A} (m : P A) (w : World) r w' :
  staged lo hi m -> m w = (r, w') -> (16 < lo \/ hi < 16)%nat ->
  renders (log w') = renders (log w).
Proof.
  intros Hs E Hn. unfold renders.
  apply (staged_flat_map _ 16 lo hi m w r w' Hs E); [intros []; simpl; congruence | exact Hn | lia].
Qed.

(** The stages that follow the measuring of the sizes. *)
Lemma staged_html_stages (api : Api) (opts : Opts) (stats : Any) :
  staged 14 19
    (do htmlFiles <- generate_html imp api opts stats in
     html_complete api opts htmlFiles).
Proof.
  apply (staged_bind 14 18 19 19); [apply staged_generate_html | | cbn; lia ..].
  intros htmlFiles. apply staged_html_complete.
Qed.

(** X4: with the [vite] or the [mako] flag a run neither measures nor
    reports file sizes. *)
Theorem sizes_skipped (api : Api) (s : S) :
  config_vite (api_config api) = true \/ config_mako (api_config api) = true ->
  measures (log (snd (fn imp api (init s)))) = []
  /\ reports (log (snd (fn imp api (init s)))) = [].
Proof.
  intros Hflag.
  assert (Hskip : forall opts stats,
             measure_sizes imp api opts stats = ret tt).
  { intros opts stats. unfold measure_sizes.
    destruct Hflag as [-> | ->]; [reflexivity|].
    rewrite andb_false_r. reflexivity. }
  destruct (fn imp api (init s)) as [r w'] eqn:E. simpl.
  rewrite fn_split in E.
  destruct (before_build imp api (init s)) as [[[opts bundler]|e] w4] eqn:E4.
  - pose proof (staged_measures 0 8 _ _ _ _ (staged_before_build api) E4
                  ltac:(right; lia)) as M4.
    pose proof (staged_reports 0 8 _ _ _ _ (staged_before_build api) E4
                  ltac:(right; lia)) as R4.
    unfold after_compose in E. rewrite bind_run in E.
    destruct (execute_build bundler opts w4) as [[stats|e] w5] eqn:E5.
    + pose proof (staged_measures 9 9 _ _ _ _ (staged_execute_build bundler opts) E5
                    ltac:(right; lia)) as M5.
      pose proof (staged_reports 9 9 _ _ _ _ (staged_execute_build bundler opts) E5
                    ltac:(right; lia)) as R5.
      rewrite bind_run, Hskip in E. cbv [ret] in E.
      rewrite (staged_measures 14 19 _ _ _ _ (staged_html_stages api opts stats) E ltac:(left; lia)).
      rewrite (staged_reports 14 19 _ _ _ _ (staged_html_stages api opts stats) E ltac:(left; lia)).
      rewrite M5, R5, M4, R4. split; reflexivity.
    + injection E as <- <-.
      rewrite (staged_measures 9 9 _ _ _ _ (staged_execute_build bundler opts) E5 ltac:(right; lia)).
      rewrite (staged_reports 9 9 _ _ _ _ (staged_execute_build bundler opts) E5 ltac:(right; lia)).
      rewrite M4, R4. split; reflexivity.
  - injection E as <- <-.
    rewrite (staged_measures 0 8 _ _ _ _ (staged_before_build api) E4
               ltac:(right; lia)).
    rewrite (staged_reports 0 8 _ _ _ _ (staged_before_build api) E4
               ltac:(right; lia)).
    split; reflexivity.
Qed.

(** X5: when the sizes are measured and the stage returns, the reporter is
    given the stats of the build, the snapshot that
    [measureFileSizesBeforeBuild] has just returned, and the folder that
    was measured, [resolve(opts.cwd, opts.config.outputPath || default)];
    the store goes from the measuring straight to the reporting. *)
Theorem sizes_reported (api : Api) (opts : Opts) (stats : Any)
        (w : World) u w' :
  config_vite (api_config api) = false ->
  config_mako (api_config api) = false ->
  measure_sizes imp api opts stats w = (Ok u, w') ->
  let folder :=
    resolve imp (opts_cwd opts)
      (str_or (config_outputPath (opts_config opts))
         (DEFAULT_OUTPUT_PATH imp)) in
  exists previous s1,
    measureFileSizesBeforeBuild imp folder (ext w) = (Ok previous, s1)
    /\ printFileSizesAfterBuild imp stats previous folder s1
       = (Ok tt, ext w')
    /\ log w' = log w
                ++ [ EMeasureFileSizes folder; EConsoleLog;
                     ELoggerInfo file_sizes_heading;
                     EPrintFileSizes stats previous folder ].
Proof.
  intros Hvite Hmako E. cbv zeta. unfold measure_sizes in E.
  rewrite Hvite, Hmako in E. cbn [negb andb] in E.
  unfold call, emit, lift in E. rewrite !bind_run in E. cbn [ext log] in E.
  destruct (measureFileSizesBeforeBuild imp _ (ext w)) as [[previous|e1] s1];
    [|discriminate E].
  rewrite !bind_run in E. cbn [ext log] in E.
  destruct (printFileSizesAfterBuild imp stats previous _ s1)
    as [[[]|e2] s2] eqn:Ep; [|discriminate E].
  injection E as <- <-. exists previous, s1. cbn [ext log].
  split; [reflexivity|]. split; [exact Ep|].
  rewrite <- !app_assoc. reflexivity.
Qed.

(** *** What the options go through *)

(** Unfold the stages and the monad, leaving the dispatches whole. *)
Ltac open_in E :=
  cbv beta iota zeta delta
      [fn clear_tmp check_pkg generate_files generate compose_build_options
       execute_build measure_sizes generate_html collect_html_files
       html_complete bind call emit lift ret fail of_result] in E.

(** Case on the outcome of the next call of a run that returned. *)
Ltac returned_call E :=
  open_in E; cbn [ext log] in E;
  match type of E with
  | context [match ?m ?s with _ => _ end] =>
      let Eq := fresh "Ecall" in
      destruct (m s) as [[? | ?] ?] eqn:Eq; [|discriminate E]
  end;
  cbn [ext log] in E.

(** The calls of an options stage that returned. *)
Lemma compose_returns (api : Api) (w : World) (opts : Opts)
      (bundler : Js Bundler) w' :
  compose_build_options imp api w = (Ok (opts, bundler), w') ->
  exists useAutomaticRuntime babel entry s1 s2,
    shouldUseAutomaticRuntime api = Ok useAutomaticRuntime
    /\ applyModify (h_modifyUniBundlerOpts (api_hooks api))
         (compose_opts imp api useAutomaticRuntime babel entry)
         (api_bundler api) s1 = (Ok opts, s2)
    /\ applyModify (h_modifyUniBundler (api_hooks api)) undefined
         {| ub_bundler := api_bundler api; ub_opts := opts |} s2
       = (Ok bundler, ext w')
    /\ log w'
       = log w
         ++ [ EGetBabelOpts;
              EApplyPlugins "modifyEntry" NoArgs;
              EApplyPlugins "onBeforeCompiler"
                (ArgsCompiler
                   {| ca_compiler := api_bundler api;
                      ca_opts := compose_opts imp api useAutomaticRuntime
                                   babel entry |});
              EApplyPlugins "modifyUniBundlerOpts"
                (ArgsBundlerOpts (api_bundler api));
              EApplyPlugins "modifyUniBundler"
                (ArgsUniBundler {| ub_bundler := api_bundler api;
                                   ub_opts := opts |}) ].
Proof.
  intros E. returned_call E. returned_call E.
  open_in E. cbn [ext log] in E.
  destruct (shouldUseAutomaticRuntime api) as [auto|e] eqn:Hauto;
    [|discriminate E].
  returned_call E. returned_call E. returned_call E.
  injection E as <- <- <-.
  match goal with
  | H1 : getBabelOpts imp api _ = (Ok ?b, _),
    H2 : applyModify (h_modifyEntry _) _ _ _ = (Ok ?en, _),
    H3 : applyModify (h_modifyUniBundlerOpts _) _ _ ?s1 = (Ok _, ?s2) |- _ =>
      exists auto, b, en, s1, s2
  end.
  cbn [ext log]. split; [reflexivity|]. split; [eassumption|].
  split; [eassumption|]. rewrite <- !app_assoc. reflexivity.
Qed.

(** C1: the options stage takes [automatic] exactly when the detected react
    version is at least 17.0.0 in semver precedence (the boundary
    included) and [classic] otherwise, also when no version is detected;
    17.0.0 and 18.2.0 give [automatic], 16.14.0 gives [classic].  The
    literal that carries this runtime is the one the [onBeforeCompiler]
    handlers are given and the [modifyUniBundlerOpts] handlers start
    from, so that without such handlers it is the runtime of the options
    the stage returns. *)
Theorem react_runtime_selection (api : Api) :
  (forall v sv,
      api_react_version api = Some v -> semver.parse v = Some sv ->
      shouldUseAutomaticRuntime api
      = Ok (semver.ge sv (semver.mkSemVer 17 0 0 []))
      /\ (semver.ge sv (semver.mkSemVer 17 0 0 []) = true <->
          (17 < semver.major sv
           \/ (semver.major sv = 17
               /\ (0 < semver.minor sv \/ 0 < semver.patch sv
                   \/ semver.prerelease sv = [])))%N))
  /\ (api_react_version api = None ->
      shouldUseAutomaticRuntime api = Ok false)
  /\ (api_react_version api = Some "17.0.0" ->
      shouldUseAutomaticRuntime api = Ok true)
  /\ (api_react_version api = Some "18.2.0" ->
      shouldUseAutomaticRuntime api = Ok true)
  /\ (api_react_version api = Some "16.14.0" ->
      shouldUseAutomaticRuntime api = Ok false)
  /\ (forall w opts bundler w',
        compose_build_options imp api w = (Ok (opts, bundler), w') ->
        exists useAutomaticRuntime babel entry s0 s1 s2,
          let literal := compose_opts imp api useAutomaticRuntime babel entry in
          let runtime := if useAutomaticRuntime then automatic else classic in
          shouldUseAutomaticRuntime api = Ok useAutomaticRuntime
          /\ opts_react_runtime literal = runtime
          /\ applyEvent (h_onBeforeCompiler (api_hooks api))
               {| ca_compiler := api_bundler api; ca_opts := literal |} s0
             = (Ok tt, s1)
          /\ applyModify (h_modifyUniBundlerOpts (api_hooks api)) literal
               (api_bundler api) s1
             = (Ok opts, s2)
          /\ (h_modifyUniBundlerOpts (api_hooks api) = [] ->
              opts_react_runtime opts = runtime)).
Proof.
  split; [|split; [|split; [|split; [|split]]]].
  - intros v sv Hv Hp. split; [|apply ge_17_iff].
    unfold shouldUseAutomaticRuntime. rewrite Hv.
    destruct (String.eqb_spec v "") as [-> | _]; [discriminate Hp|].
    unfold semver.gte. rewrite Hp, parse_threshold. reflexivity.
  - intros Hv. unfold shouldUseAutomaticRuntime. rewrite Hv. reflexivity.
  - intros Hv. unfold shouldUseAutomaticRuntime. rewrite Hv. reflexivity.
  - intros Hv. unfold shouldUseAutomaticRuntime. rewrite Hv. reflexivity.
  - intros Hv. unfold shouldUseAutomaticRuntime. rewrite Hv. reflexivity.
  - intros w opts bundler w' E. returned_call E. returned_call E.
    open_in E. cbn [ext log] in E.
    destruct (shouldUseAutomaticRuntime api) as [auto|e] eqn:Hauto;
      [|discriminate E].
    returned_call E. returned_call E. returned_call E.
    injection E as <- <- <-.
    match goal with
    | H1 : getBabelOpts imp api _ = (Ok ?b, _),
      H2 : applyModify (h_modifyEntry _) _ _ _ = (Ok ?en, _),
      H3 : applyEvent (h_onBeforeCompiler _) _ ?s0 = (Ok ?u, ?s1),
      H4 : applyModify (h_modifyUniBundlerOpts _) _ _ _ = (Ok _, ?s2) |- _ =>
        exists auto, b, en, s0, s1, s2; destruct u;
        cbv zeta; split; [reflexivity|]; split; [reflexivity|];
        split; [exact H3|]; split; [exact H4|];
        intros Hnil; rewrite Hnil in H4; injection H4 as <- _; reflexivity
    end.
Qed.

(** X10: when the options stage returns, [onBeforeCompiler] was given the
    literal of lines 105-131, the options it returns are what the
    [modifyUniBundlerOpts] handlers made of that literal, and those
    options are what the [modifyUniBundler] handlers were given; the
    bundler it returns is what these handlers made of [undefined]. *)
Theorem options_flow (api : Api) (w : World) (opts : Opts)
        (bundler : Js Bundler) w' :
  compose_build_options imp api w = (Ok (opts, bundler), w') ->
  exists useAutomaticRuntime babel entry s1 s2,
    let literal := compose_opts imp api useAutomaticRuntime babel entry in
    shouldUseAutomaticRuntime api = Ok useAutomaticRuntime
    /\ applyModify (h_modifyUniBundlerOpts (api_hooks api)) literal
         (api_bundler api) s1 = (Ok opts, s2)
    /\ applyModify (h_modifyUniBundler (api_hooks api)) undefined
         {| ub_bundler := api_bundler api; ub_opts := opts |} s2
       = (Ok bundler, ext w')
    /\ dispatch_args "onBeforeCompiler" (log w')
       = dispatch_args "onBeforeCompiler" (log w)
         ++ [ArgsCompiler {| ca_compiler := api_bundler api;
                             ca_opts := literal |}]
    /\ dispatch_args "modifyUniBundler" (log w')
       = dispatch_args "modifyUniBundler" (log w)
         ++ [ArgsUniBundler {| ub_bundler := api_bundler api;
                               ub_opts := opts |}].
Proof.
  intros E.
  destruct (compose_returns _ _ _ _ _ E)
    as (auto & babel & entry & s1 & s2 & Ha & Ho & Hb & Hl).
  exists auto, babel, entry, s1, s2. cbv zeta.
  split; [exact Ha|]. split; [exact Ho|]. split; [exact Hb|].
  rewrite Hl. unfold dispatch_args. rewrite !flat_map_app. simpl.
  split; reflexivity.
Qed.

Lemma html_complete_journal (api : Api) (opts : Opts) htmlFiles
      (w : World) r w' :
  html_complete api opts htmlFiles w = (r, w') ->
  log w' = log w
           ++ EApplyPlugins "onBuildHtmlComplete"
                (ArgsHtmlComplete (with_htmlFiles opts htmlFiles))
              :: outcome_tail r.
Proof.
  unfold html_complete, call, emit, lift. rewrite bind_run. simpl.
  destruct (applyEvent _ _ (ext w)) as [[u|e] s']; intros E;
    injection E as <- <-; simpl; rewrite <- ?app_assoc; reflexivity.
Qed.

Lemma execute_build_journal (bundler : Js Bundler) (opts : Opts)
      (w : World) stats w' :
  execute_build bundler opts w = (Ok stats, w') ->
  log w' = log w ++ [EBundlerBuild opts].
Proof.
  unfold execute_build. destruct bundler as [| |b]; try discriminate.
  unfold call, emit, lift. rewrite bind_run. simpl.
  destruct (build b opts (ext w)) as [[st|e] s']; intros E;
    [|discriminate E].
  injection E as _ <-. reflexivity.
Qed.

(** A [forEach] that returns has written every document. *)
Lemma write_html_files_returns (api : Api) (htmlFiles : list HtmlFile)
      (w : World) u w' :
  write_html_files imp api htmlFiles w = (Ok u, w') ->
  writes (log w') = writes (log w) ++ map (target imp api) htmlFiles.
Proof.
  revert w. induction htmlFiles as [|f rest IH]; intros w E.
  - injection E as _ <-. simpl. rewrite app_nil_r. reflexivity.
  - cbn [write_html_files] in E.
    unfold call, emit, lift in E. rewrite !bind_run in E. cbn [ext log] in E.
    destruct (mkdirpSync imp _ (ext w)) as [[u1|e1] s1]; [|discriminate E].
    rewrite !bind_run in E. cbn [ext log] in E.
    destruct (writeFileSync imp _ _ s1) as [[u2|e2] s2]; [|discriminate E].
    rewrite !bind_run in E. cbn [ext log] in E.
    rewrite (IH _ E). cbn [log]. unfold writes. rewrite !flat_map_app.
    simpl. rewrite !app_nil_r, <- !app_assoc. reflexivity.
Qed.

(** The documents of a returned HTML stage are the ones it wrote. *)
Lemma generate_html_writes (api : Api) (opts : Opts) (stats : Any)
      (w : World) htmlFiles w' :
  generate_html imp api opts stats w = (Ok htmlFiles, w') ->
  writes (log w') = writes (log w) ++ map (target imp api) htmlFiles.
Proof.
  unfold generate_html.
  destruct (negb (config_mpa (api_config api))).
  - rewrite bind_run.
    destruct (collect_html_files imp api opts stats w) as [[files|e] w1] eqn:E1;
      [|discriminate].
    rewrite bind_run.
    destruct (write_html_files imp api files w1) as [[u|e] w2] eqn:E2;
      [|discriminate].
    intros E. injection E as <- <-.
    rewrite (write_html_files_returns _ _ _ _ _ E2).
    rewrite (staged_writes 14 17 _ _ _ _
               (staged_collect_html_files api opts stats) E1 ltac:(right; lia)).
    reflexivity.
  - intros E. injection E as <- <-. simpl. rewrite app_nil_r. reflexivity.
Qed.

Lemma builds_app (j1 j2 : list Effect) :
  builds (j1 ++ j2) = builds j1 ++ builds j2.
Proof. apply flat_map_app. Qed.

Lemma writes_app (j1 j2 : list Effect) :
  writes (j1 ++ j2) = writes j1 ++ writes j2.
Proof. apply flat_map_app. Qed.

Lemma renders_app (j1 j2 : list Effect) :
  renders (j1 ++ j2) = renders j1 ++ renders j2.
Proof. apply flat_map_app. Qed.

Lemma dispatch_args_app (key : string) (j1 j2 : list Effect) :
  dispatch_args key (j1 ++ j2) = dispatch_args key j1 ++ dispatch_args key j2.
Proof. apply flat_map_app. Qed.

Lemma staged_first_stages (api : Api) :
  staged 0 3 (clear_tmp imp api >> check_pkg api >> generate_files api).
Proof.
  apply (staged_bind 0 1 2 3); [apply staged_clear_tmp | | cbn; lia ..].
  intros _.
  apply (staged_bind 2 2 3 3); [apply staged_check_pkg | | cbn; lia ..].
  intros _. apply staged_generate_files.
Qed.

Lemma before_build_split (api : Api) (w : World) :
  before_build imp api w
  = match (clear_tmp imp api >> check_pkg api >> generate_files api) w with
    | (Ok _, w3) => compose_build_options imp api w3
    | (Err e, w3) => (Err e, w3)
    end.
Proof.
  unfold before_build. rewrite !bind_run.
  destruct (clear_tmp imp api w) as [[u1|e1] w1]; [|reflexivity].
  rewrite !bind_run.
  destruct (check_pkg api w1) as [[u2|e2] w2]; [|reflexivity].
  rewrite !bind_run.
  destruct (generate_files api w2) as [[u3|e3] w3]; reflexivity.
Qed.

(** The stages of a run that returned. *)
Lemma returned_run_stages (api : Api) (s : S) u w' :
  fn imp api (init s) = (Ok u, w') ->
  exists u3 w3 opts bundler w4 stats w5 u6 w6 htmlFiles w7,
    (clear_tmp imp api >> check_pkg api >> generate_files api) (init s)
    = (Ok u3, w3)
    /\ compose_build_options imp api w3 = (Ok (opts, bundler), w4)
    /\ execute_build bundler opts w4 = (Ok stats, w5)
    /\ measure_sizes imp api opts stats w5 = (Ok u6, w6)
    /\ generate_html imp api opts stats w6 = (Ok htmlFiles, w7)
    /\ html_complete api opts htmlFiles w7 = (Ok u, w').
Proof.
  intros E. rewrite fn_split, before_build_split in E.
  destruct ((clear_tmp imp api >> check_pkg api >> generate_files api) (init s))
    as [[u3|e3] w3] eqn:E3; [|discriminate E].
  destruct (compose_build_options imp api w3) as [[[opts bundler]|e4] w4] eqn:E4;
    [|discriminate E].
  unfold after_compose in E. rewrite bind_run in E.
  destruct (execute_build bundler opts w4) as [[stats|e5] w5] eqn:E5;
    [|discriminate E].
  rewrite bind_run in E.
  destruct (measure_sizes imp api opts stats w5) as [[u6|e6] w6] eqn:E6;
    [|discriminate E].
  rewrite bind_run in E.
  destruct (generate_html imp api opts stats w6) as [[files|e7] w7] eqn:E7;
    [|discriminate E].
  exists u3, w3, opts, bundler, w4, stats, w5, u6, w6, files, w7.
  repeat split; assumption.
Qed.

(** What [onBuildHtmlComplete] is given in a run that returned. *)
Lemma returned_run_completion (api : Api) (s : S) opts bundler stats htmlFiles
      u3 w3 w4 w5 u6 w6 w7 u w' :
  (clear_tmp imp api >> check_pkg api >> generate_files api) (init s)
  = (Ok u3, w3) ->
  compose_build_options imp api w3 = (Ok (opts, bundler), w4) ->
  execute_build bundler opts w4 = (Ok stats, w5) ->
  measure_sizes imp api opts stats w5 = (Ok u6, w6) ->
  generate_html imp api opts stats w6 = (Ok htmlFiles, w7) ->
  html_complete api opts htmlFiles w7 = (Ok u, w') ->
  dispatch_args "onBuildHtmlComplete" (log w')
  = [ArgsHtmlComplete (with_htmlFiles opts htmlFiles)].
Proof.
  intros E3 E4 E5 E6 E7 E.
  pose proof (html_complete_journal _ _ _ _ _ _ E) as J8. simpl in J8.
  pose proof (execute_build_journal _ _ _ _ _ E5) as J5.
  rewrite J8, dispatch_args_app.
  rewrite (staged_dispatch_args "onBuildHtmlComplete" 14 18 _ _ _ _
             (staged_generate_html api opts stats) E7)
    by (cbv; lia).
  rewrite (staged_dispatch_args "onBuildHtmlComplete" 10 13 _ _ _ _
             (staged_measure_sizes api opts stats) E6)
    by (cbv; lia).
  rewrite J5, dispatch_args_app.
  rewrite (staged_dispatch_args "onBuildHtmlComplete" 4 8 _ _ _ _
             (staged_compose_build_options api) E4)
    by (cbv; lia).
  rewrite (staged_dispatch_args "onBuildHtmlComplete" 0 3 _ _ _ _
             (staged_first_stages api) E3)
    by (cbv; lia).
  reflexivity.
Qed.

(** *** What a stage that returned asked of the outside world *)

Lemma execute_build_returns (bundler : Js Bundler) (opts : Opts)
      (w : World) stats w' :
  execute_build bundler opts w = (Ok stats, w') ->
  exists b, bundler = val b /\ build b opts (ext w) = (Ok stats, ext w').
Proof.
  unfold execute_build. destruct bundler as [| |b]; try discriminate.
  unfold call, emit, lift. rewrite bind_run. simpl.
  destruct (build b opts (ext w)) as [[st|e] s'] eqn:Eb; intros E;
    [|discriminate E].
  injection E as <- <-. exists b. split; [reflexivity | exact Eb].
Qed.

Lemma measure_sizes_returns (api : Api) (opts : Opts) (stats : Any)
      (w : World) u w' :
  measure_sizes imp api opts stats w = (Ok u, w') ->
  let folder :=
    resolve imp (opts_cwd opts)
      (str_or (config_outputPath (opts_config opts))
              (DEFAULT_OUTPUT_PATH imp)) in
  if negb (config_vite (api_config api)) && negb (config_mako (api_config api))
  then exists previousFileSizes s1,
         measureFileSizesBeforeBuild imp folder (ext w)
         = (Ok previousFileSizes, s1)
         /\ printFileSizesAfterBuild imp stats previousFileSizes folder s1
            = (Ok tt, ext w')
  else ext w' = ext w.
Proof.
  intros E. cbv zeta. unfold measure_sizes in E.
  destruct (negb (config_vite (api_config api))
            && negb (config_mako (api_config api))).
  - returned_call E. returned_call E. injection E as <- <-.
    repeat match goal with x : unit |- _ => destruct x end.
    do 2 eexists. split; [reflexivity | exact Ecall0].
  - injection E as _ <-. reflexivity.
Qed.

Lemma collect_html_files_returns (api : Api) (opts : Opts) (stats : Any)
      (w : World) htmlFiles w' :
  collect_html_files imp api opts stats w = (Ok htmlFiles, w') ->
  exists assetsMap args content s0 s1 s2,
    let final := finalMarkUpArgs api opts assetsMap args in
    (if config_vite (api_config api)
     then assetsMap = ∅ /\ s0 = ext w
     else getAssetsMap imp stats (config_publicPath (api_config api)) (ext w)
          = (Ok assetsMap, s0))
    /\ getMarkupArgs imp api s0 = (Ok args, s1)
    /\ getMarkup imp final s1 = (Ok content, s2)
    /\ applyModify (h_modifyExportHTMLFiles (api_hooks api))
         [ {| html_path := "index.html"; html_content := content |} ]
         {| markupArgs := final; ea_getMarkup := getMarkup imp |} s2
       = (Ok htmlFiles, ext w').
Proof.
  intros E. unfold collect_html_files in E.
  destruct (config_vite (api_config api)) eqn:Hvite.
  - returned_call E. returned_call E. returned_call E.
    injection E as <- <-. cbn [ext].
    match goal with
    | H1 : getMarkupArgs imp api ?s0 = (Ok ?a, ?s1),
      H2 : getMarkup imp _ _ = (Ok ?c, ?s2),
      H3 : applyModify (h_modifyExportHTMLFiles _) _ _ _ = _ |- _ =>
        exists ∅, a, c, s0, s1, s2; cbv zeta;
        split; [split; reflexivity|]; split; [exact H1|];
        split; [exact H2 | exact H3]
    end.
  - returned_call E. returned_call E. returned_call E. returned_call E.
    injection E as <- <-. cbn [ext].
    match goal with
    | H0 : getAssetsMap imp _ _ _ = (Ok ?m, ?s0),
      H1 : getMarkupArgs imp api _ = (Ok ?a, ?s1),
      H2 : getMarkup imp _ _ = (Ok ?c, ?s2),
      H3 : applyModify (h_modifyExportHTMLFiles _) _ _ _ = _ |- _ =>
        exists m, a, c, s0, s1, s2; cbv zeta;
        split; [reflexivity|]; split; [exact H1|];
        split; [exact H2 | exact H3]
    end.
Qed.

(** The documents of an HTML stage that returned are what the
    [modifyExportHTMLFiles] handlers made of the default document, and
    they have all been written, in order. *)
Lemma generate_html_returns (api : Api) (opts : Opts) (stats : Any)
      (w : World) htmlFiles w' :
  generate_html imp api opts stats w = (Ok htmlFiles, w') ->
  if config_mpa (api_config api)
  then htmlFiles = [] /\ ext w' = ext w
  else exists assetsMap args content s0 s1 s2 s3,
         let final := finalMarkUpArgs api opts assetsMap args in
         (if config_vite (api_config api)
          then assetsMap = ∅ /\ s0 = ext w
          else getAssetsMap imp stats (config_publicPath (api_config api))
                 (ext w)
               = (Ok assetsMap, s0))
         /\ getMarkupArgs imp api s0 = (Ok args, s1)
         /\ getMarkup imp final s1 = (Ok content, s2)
         /\ applyModify (h_modifyExportHTMLFiles (api_hooks api))
              [ {| html_path := "index.html"; html_content := content |} ]
              {| markupArgs := final; ea_getMarkup := getMarkup imp |} s2
            = (Ok htmlFiles, s3)
         /\ write_all imp api htmlFiles s3 = (Ok tt, ext w').
Proof.
  unfold generate_html.
  destruct (config_mpa (api_config api)); cbn [negb].
  - intros E. injection E as <- <-. split; reflexivity.
  - rewrite bind_run.
    destruct (collect_html_files imp api opts stats w) as [[files|e] w1] eqn:E1;
      [|discriminate].
    rewrite bind_run.
    destruct (write_html_files imp api files w1) as [[[]|e] w2] eqn:E2;
      [|discriminate].
    intros E. injection E as <- <-.
    destruct (collect_html_files_returns _ _ _ _ _ _ E1)
      as (assetsMap & args & content & s0 & s1 & s2 & H0 & H1 & H2 & H3).
    exists assetsMap, args, content, s0, s1, s2, (ext w1). cbv zeta.
    split; [exact H0|]. split; [exact H1|]. split; [exact H2|].
    split; [exact H3|].
    rewrite <- write_html_files_store, E2. reflexivity.
Qed.

Lemma html_complete_returns (api : Api) (opts : Opts) htmlFiles
      (w : World) u w' :
  html_complete api opts htmlFiles w = (Ok u, w') ->
  applyEvent (h_onBuildHtmlComplete (api_hooks api))
    (with_htmlFiles opts htmlFiles) (ext w)
  = (Ok tt, ext w').
Proof.
  unfold html_complete, call, emit, lift. rewrite bind_run. simpl.
  destruct (applyEvent _ _ (ext w)) as [[[]|e] s']; intros E;
    [|discriminate E].
  injection E as _ <-. reflexivity.
Qed.

(** X9: in a run that returns, the bundler that the [modifyUniBundler]
    handlers returned was asked to build, once, the options those handlers
    were given; on the store the size stage left, the documents are what
    the [modifyExportHTMLFiles] handlers returned for the rendered default
    document (none in multi-page mode); each of them has been written to
    its target, in order, and nothing else; and the
    [onBuildHtmlComplete] handlers were run, on the store the last write
    left, with those options and exactly these documents as [htmlFiles],
    leaving the store of the run. *)
Theorem completion_reports_what_was_written (api : Api) (s : S) :
  match fst (fn imp api (init s)) with
  | Ok _ =>
      exists opts b stats htmlFiles s2 s3 s4 s5 s6,
        let j := log (snd (fn imp api (init s))) in
        let folder :=
          resolve imp (opts_cwd opts)
            (str_or (config_outputPath (opts_config opts))
                    (DEFAULT_OUTPUT_PATH imp)) in
        applyModify (h_modifyUniBundler (api_hooks api)) undefined
          {| ub_bundler := api_bundler api; ub_opts := opts |} s2
        = (Ok (val b), s3)
        /\ build b opts s3 = (Ok stats, s4)
        /\ builds j = [opts]
        /\ dispatch_args "modifyUniBundler" j
           = [ArgsUniBundler {| ub_bundler := api_bundler api;
                                ub_opts := opts |}]
        /\ (if negb (config_vite (api_config api))
               && negb (config_mako (api_config api))
            then exists previousFileSizes s',
                   measureFileSizesBeforeBuild imp folder s4
                   = (Ok previousFileSizes, s')
                   /\ printFileSizesAfterBuild imp stats previousFileSizes
                        folder s'
                      = (Ok tt, s5)
            else s5 = s4)
        /\ (if config_mpa (api_config api)
            then htmlFiles = [] /\ s6 = s5
            else exists assetsMap args content sa sb sc sd,
                   let final := finalMarkUpArgs api opts assetsMap args in
                   (if config_vite (api_config api)
                    then assetsMap = ∅ /\ sa = s5
                    else getAssetsMap imp stats
                           (config_publicPath (api_config api)) s5
                         = (Ok assetsMap, sa))
                   /\ getMarkupArgs imp api sa = (Ok args, sb)
                   /\ getMarkup imp final sb = (Ok content, sc)
                   /\ applyModify (h_modifyExportHTMLFiles (api_hooks api))
                        [ {| html_path := "index.html";
                             html_content := content |} ]
                        {| markupArgs := final;
                           ea_getMarkup := getMarkup imp |} sc
                      = (Ok htmlFiles, sd)
                   /\ write_all imp api htmlFiles sd = (Ok tt, s6))
        /\ applyEvent (h_onBuildHtmlComplete (api_hooks api))
             (with_htmlFiles opts htmlFiles) s6
           = (Ok tt, ext (snd (fn imp api (init s))))
        /\ writes j = map (target imp api) htmlFiles
        /\ dispatch_args "onBuildHtmlComplete" j
           = [ArgsHtmlComplete (with_htmlFiles opts htmlFiles)]
  | Err _ => True
  end.
Proof.
  destruct (fn imp api (init s)) as [[u|e] w'] eqn:E; simpl; [|exact I].
  destruct (returned_run_stages _ _ _ _ E)
    as (u3 & w3 & opts & bundler & w4 & stats & w5 & u6 & w6 & files & w7
        & E3 & E4 & E5 & E6 & E7 & E8).
  pose proof (html_complete_journal _ _ _ _ _ _ E8) as J8. simpl in J8.
  pose proof (execute_build_journal _ _ _ _ _ E5) as J5.
  destruct (compose_returns _ _ _ _ _ E4)
    as (auto & babel & entry & s1 & s2 & _ & _ & Hb & J4).
  destruct (execute_build_returns _ _ _ _ _ E5) as (b & -> & Hbuild).
  exists opts, b, stats, files, s2, (ext w4), (ext w5), (ext w6), (ext w7).
  split; [exact Hb|]. split; [exact Hbuild|].
  split; [|split; [|split; [|split; [|split; [|split]]]]].
  - rewrite J8, builds_app.
    rewrite (staged_builds 14 18 _ _ _ _ (staged_generate_html api opts stats)
               E7 ltac:(left; lia)).
    rewrite (staged_builds 10 13 _ _ _ _ (staged_measure_sizes api opts stats)
               E6 ltac:(left; lia)).
    rewrite J5, builds_app.
    rewrite (staged_builds 4 8 _ _ _ _ (staged_compose_build_options api)
               E4 ltac:(right; lia)).
    rewrite (staged_builds 0 3 _ _ _ _ (staged_first_stages api)
               E3 ltac:(right; lia)).
    reflexivity.
  - rewrite J8, dispatch_args_app.
    rewrite (staged_dispatch_args "modifyUniBundler" 14 18 _ _ _ _
               (staged_generate_html api opts stats) E7)
      by (cbv; lia).
    rewrite (staged_dispatch_args "modifyUniBundler" 10 13 _ _ _ _
               (staged_measure_sizes api opts stats) E6)
      by (cbv; lia).
    rewrite J5, dispatch_args_app, J4, dispatch_args_app.
    rewrite (staged_dispatch_args "modifyUniBundler" 0 3 _ _ _ _
               (staged_first_stages api) E3)
      by (cbv; lia).
    reflexivity.
  - exact (measure_sizes_returns _ _ _ _ _ _ E6).
  - exact (generate_html_returns _ _ _ _ _ _ E7).
  - exact (html_complete_returns _ _ _ _ _ _ E8).
  - rewrite J8, writes_app.
    rewrite (generate_html_writes _ _ _ _ _ _ E7).
    rewrite (staged_writes 10 13 _ _ _ _ (staged_measure_sizes api opts stats)
               E6 ltac:(right; lia)).
    rewrite J5, writes_app.
    rewrite (staged_writes 4 8 _ _ _ _ (staged_compose_build_options api)
               E4 ltac:(right; lia)).
    rewrite (staged_writes 0 3 _ _ _ _ (staged_first_stages api)
               E3 ltac:(right; lia)).
    simpl. rewrite !app_nil_r. reflexivity.
  - exact (returned_run_completion _ _ _ _ _ _ _ _ _ _ _ _ _ _ _
             E3 E4 E5 E6 E7 E8).
Qed.

(** *** Multi-page mode *)

(** In multi-page mode no call of the HTML stage is entered. *)
Lemma mpa_quiet {X} (g : Effect -> list X) (n : nat) (api : Api) (s : S) :
  (forall e, rank e <> n -> g e = []) -> (14 <= n <= 18)%nat ->
  config_mpa (api_config api) = true ->
  flat_map g (log (snd (fn imp api (init s)))) = [].
Proof.
  intros Hg Hn Hmpa.
  destruct (fn imp api (init s)) as [r w'] eqn:E. simpl.
  rewrite fn_split in E.
  destruct (before_build imp api (init s)) as [[[opts bundler]|e] w4] eqn:E4.
  - pose proof (staged_flat_map g n 0 8 _ _ _ _ (staged_before_build api) E4
                  Hg ltac:(right; lia) ltac:(lia)) as H4.
    unfold after_compose in E. rewrite bind_run in E.
    destruct (execute_build bundler opts w4) as [[stats|e] w5] eqn:E5.
    + pose proof (staged_flat_map g n 9 9 _ _ _ _
                    (staged_execute_build bundler opts) E5
                    Hg ltac:(right; lia) ltac:(lia)) as H5.
      rewrite bind_run in E.
      destruct (measure_sizes imp api opts stats w5) as [[u6|e] w6] eqn:E6.
      * pose proof (staged_flat_map g n 10 13 _ _ _ _
                      (staged_measure_sizes api opts stats) E6
                      Hg ltac:(right; lia) ltac:(lia)) as H6.
        unfold generate_html in E. rewrite Hmpa, bind_run in E.
        cbv [negb ret] in E.
        rewrite (staged_flat_map g n 19 19 _ _ _ _
                   (staged_html_complete api opts []) E
                   Hg ltac:(left; lia) ltac:(lia)).
        rewrite H6, H5, H4. reflexivity.
      * injection E as <- <-.
        rewrite (staged_flat_map g n 10 13 _ _ _ _
                   (staged_measure_sizes api opts stats) E6
                   Hg ltac:(right; lia) ltac:(lia)).
        rewrite H5, H4. reflexivity.
    + injection E as <- <-.
      rewrite (staged_flat_map g n 9 9 _ _ _ _
                 (staged_execute_build bundler opts) E5
                 Hg ltac:(right; lia) ltac:(lia)).
      rewrite H4. reflexivity.
  - injection E as <- <-.
    rewrite (staged_flat_map g n 0 8 _ _ _ _ (staged_before_build api) E4
               Hg ltac:(right; lia) ltac:(lia)).
    reflexivity.
Qed.

(** X6: in multi-page mode a run computes no assets map, renders no
    markup, does not dispatch [modifyExportHTMLFiles], creates no directory
    and writes no file; a run that returns has given
    [onBuildHtmlComplete] an empty [htmlFiles]. *)
Theorem multi_page_mode_emits_nothing (api : Api) (s : S) :
  config_mpa (api_config api) = true ->
  let j := log (snd (fn imp api (init s))) in
  asset_maps j = []
  /\ renders j = []
  /\ dispatch_args "modifyExportHTMLFiles" j = []
  /\ mkdirs j = []
  /\ writes j = []
  /\ match fst (fn imp api (init s)) with
     | Ok _ =>
         exists opts,
           dispatch_args "onBuildHtmlComplete" j
           = [ArgsHtmlComplete (with_htmlFiles opts [])]
     | Err _ => True
     end.
Proof.
  intros Hmpa j. subst j. repeat split.
  - apply (mpa_quiet _ 14); [intros []; simpl; congruence | lia | exact Hmpa].
  - apply (mpa_quiet _ 16); [intros []; simpl; congruence | lia | exact Hmpa].
  - unfold dispatch_args.
    apply (mpa_quiet _ (key_rank "modifyExportHTMLFiles"));
      [apply dispatch_rank | cbv; lia | exact Hmpa].
  - apply (mpa_quiet _ 18); [intros []; simpl; congruence | lia | exact Hmpa].
  - apply (mpa_quiet _ 18); [apply writes_rank | lia | exact Hmpa].
  - destruct (fn imp api (init s)) as [[u|e] w'] eqn:E; simpl; [|exact I].
    destruct (returned_run_stages _ _ _ _ E)
      as (u3 & w3 & opts & bundler & w4 & stats & w5 & u6 & w6 & files & w7
          & E3 & E4 & E5 & E6 & E7 & E8).
    exists opts.
    rewrite (returned_run_completion _ _ _ _ _ _ _ _ _ _ _ _ _ _ _
               E3 E4 E5 E6 E7 E8).
    unfold generate_html in E7. rewrite Hmpa in E7.
    injection E7 as <- _. reflexivity.
Qed.

(** *** The [vite] backend *)

(** X7: on the [vite] backend the markup stage does not call
    [getAssetsMap]: [getMarkupArgs] is the first call, and the markup is
    rendered with the styles and scripts it returned, nothing added. *)
Theorem vite_injects_nothing (api : Api) (opts : Opts) (stats : Any)
        (w : World) :
  config_vite (api_config api) = true ->
  let run := collect_html_files imp api opts stats w in
  asset_maps (log (snd run)) = asset_maps (log w)
  /\ match getMarkupArgs imp api (ext w) with
     | (Ok args, _) =>
         exists final,
           renders (log (snd run)) = renders (log w) ++ [final]
           /\ styles final = styles args
           /\ scripts final = scripts args
     | (Err e, s1) => run = (Err e, {| ext := s1;
                                       log := log w ++ [EGetMarkupArgs; EThrown e] |})
     end.
Proof.
  intros Hvite run. subst run. unfold collect_html_files, finalMarkUpArgs.
  rewrite Hvite. cbv [bind ret call emit lift]. cbn [ext log].
  destruct (getMarkupArgs imp api (ext w)) as [[args|e] s1]; cbn [ext log].
  - destruct (getMarkup imp _ s1) as [[content|e] s2]; cbn [ext log].
    + destruct (applyModify _ _ _ s2) as [[files|e] s3]; cbn [snd log];
        unfold asset_maps, renders; rewrite !flat_map_app; simpl;
        rewrite !app_nil_r; (split; [reflexivity|]);
        eexists; (split; [reflexivity|]); cbn [styles scripts app];
        rewrite ?app_nil_r; split; reflexivity.
    + cbn [snd log]. unfold asset_maps, renders. rewrite !flat_map_app.
      simpl. rewrite !app_nil_r. split; [reflexivity|].
      eexists. split; [reflexivity|]. cbn [styles scripts app].
      rewrite ?app_nil_r. split; reflexivity.
  - cbn [snd log]. unfold asset_maps. rewrite !flat_map_app. simpl.
    rewrite !app_nil_r. split; [reflexivity|].
    rewrite <- app_assoc. reflexivity.
Qed.

(** *** A react version that is not a version *)

Lemma bind_fail {A B} (e : Failure) (k : A -> P B) :
  bind (fail e) k = fail e.
Proof. reflexivity. Qed.

Lemma staged_compose_throws (api : Api) e :
  shouldUseAutomaticRuntime api = Err e ->
  staged 4 5 (compose_build_options imp api).
Proof.
  intros He. unfold compose_build_options. rewrite He.
  cbn [of_result]. repeat staged_step. rewrite bind_fail. apply staged_fail.
Qed.

(** X11: when the selection of the react runtime throws, the options stage
    fails after [getBabelOpts] and the [modifyEntry] dispatch, with that
    failure if both returned, and the run ends without dispatching
    [onBeforeCompiler], building or writing anything. *)
Theorem runtime_failure_stops_before_compiler (api : Api) (s : S) e :
  shouldUseAutomaticRuntime api = Err e ->
  (forall w babel s1 entry s2,
      getBabelOpts imp api (ext w) = (Ok babel, s1) ->
      applyModify (h_modifyEntry (api_hooks api))
        {[ "umi" := join imp (api_absTmpPath api) "umi.ts" ]} tt s1
      = (Ok entry, s2) ->
      compose_build_options imp api w
      = (Err e, {| ext := s2;
                   log := log w ++ [ EGetBabelOpts;
                                     EApplyPlugins "modifyEntry" NoArgs;
                                     EThrown e ] |}))
  /\ (exists e', fst (fn imp api (init s)) = Err e')
  /\ dispatch_args "onBeforeCompiler" (log (snd (fn imp api (init s)))) = []
  /\ builds (log (snd (fn imp api (init s)))) = []
  /\ writes (log (snd (fn imp api (init s)))) = [].
Proof.
  intros He. split.
  - intros w babel s1 entry s2 Eb Ee. unfold compose_build_options.
    rewrite He. cbv [bind call emit lift of_result fail]. cbn [ext log].
    rewrite Eb. cbn [ext log]. rewrite Ee. cbn [ext log].
    rewrite <- !app_assoc. reflexivity.
  - destruct (fn imp api (init s)) as [r w'] eqn:E. simpl.
    rewrite fn_split, before_build_split in E.
    destruct ((clear_tmp imp api >> check_pkg api >> generate_files api) (init s))
      as [[u3|e3] w3] eqn:E3.
    + destruct (compose_build_options imp api w3)
        as [[[opts bundler]|e4] w4] eqn:E4.
      * exfalso.
        destruct (compose_returns _ _ _ _ _ E4) as (b & _ & _ & _ & _ & H & _).
        rewrite He in H. discriminate H.
      * injection E as <- <-. split; [eauto|].
        rewrite (staged_dispatch_args "onBeforeCompiler" 4 5 _ _ _ _
                   (staged_compose_throws api e He) E4) by (cbv; lia).
        rewrite (staged_builds 4 5 _ _ _ _
                   (staged_compose_throws api e He) E4 ltac:(right; lia)).
        rewrite (staged_writes 4 5 _ _ _ _
                   (staged_compose_throws api e He) E4 ltac:(right; lia)).
        rewrite (staged_dispatch_args "onBeforeCompiler" 0 3 _ _ _ _
                   (staged_first_stages api) E3) by (cbv; lia).
        rewrite (staged_builds 0 3 _ _ _ _
                   (staged_first_stages api) E3 ltac:(right; lia)).
        rewrite (staged_writes 0 3 _ _ _ _
                   (staged_first_stages api) E3 ltac:(right; lia)).
        repeat split.
    + injection E as <- <-. split; [eauto|].
      rewrite (staged_dispatch_args "onBeforeCompiler" 0 3 _ _ _ _
                 (staged_first_stages api) E3) by (cbv; lia).
      rewrite (staged_builds 0 3 _ _ _ _
                 (staged_first_stages api) E3 ltac:(right; lia)).
      rewrite (staged_writes 0 3 _ _ _ _
                 (staged_first_stages api) E3 ltac:(right; lia)).
      repeat split.
Qed.

(** *** The output folder *)

(** X12: the folder that line 160 computes from the options literal,
    [opts.config.outputPath || DEFAULT_OUTPUT_PATH].  An [outputPath] key
    of [api.config] decides alone: its value when that is a non-empty
    string, and the default of the bundler when the key is there with
    [undefined], [null] or [''], whatever the user configuration says.
    Without the key the folder is [api.userConfig.outputPath] when that is
    a non-empty string and ['dist'] otherwise, never the bundler's
    default. *)
Theorem literal_output_folder (api : Api) (b : bool) (babel : BabelOpts)
        (entry : gmap string string) :
  str_or (config_outputPath (opts_config (compose_opts imp api b babel entry)))
    (DEFAULT_OUTPUT_PATH imp)
  = match config_outputPath (api_config api) with
    | Some (val p) => if (p =? "")%string then DEFAULT_OUTPUT_PATH imp else p
    | Some _ => DEFAULT_OUTPUT_PATH imp
    | None =>
        match api_userConfig_outputPath api with
        | Some (val u) => if (u =? "")%string then "dist" else u
        | _ => "dist"
        end
    end.
Proof.
  cbn. destruct (config_outputPath (api_config api)) as [[| |p]|];
    try reflexivity.
  destruct (api_userConfig_outputPath api) as [[| |u]|]; try reflexivity.
  cbn. destruct (String.eqb_spec u "") as [-> | Hu]; [reflexivity|].
  destruct (String.eqb_spec u "") as [-> | _]; [congruence | reflexivity].
Qed.

(** *** What the HTML handlers are given *)

(** X13: when the markup part of the HTML stage returns, [getMarkup] was
    called once, with the final markup arguments, and the
    [modifyExportHTMLFiles] handlers were given those same arguments and,
    as the value to modify, the single document [index.html] holding what
    that call rendered; the documents of the stage are what the handlers
    made of it. *)
Theorem export_handlers_get_rendered_default (api : Api) (opts : Opts)
        (stats : Any) (w : World) htmlFiles w' :
  collect_html_files imp api opts stats w = (Ok htmlFiles, w') ->
  exists assetsMap args content s1 s2,
    let final := finalMarkUpArgs api opts assetsMap args in
    getMarkup imp final s1 = (Ok content, s2)
    /\ applyModify (h_modifyExportHTMLFiles (api_hooks api))
         [ {| html_path := "index.html"; html_content := content |} ]
         {| markupArgs := final; ea_getMarkup := getMarkup imp |} s2
       = (Ok htmlFiles, ext w')
    /\ renders (log w') = renders (log w) ++ [final]
    /\ dispatch_args "modifyExportHTMLFiles" (log w')
       = dispatch_args "modifyExportHTMLFiles" (log w) ++ [ArgsExportHTML final].
Proof.
  intros E. unfold collect_html_files in E.
  destruct (config_vite (api_config api)) eqn:Hvite.
  - returned_call E. returned_call E. returned_call E.
    injection E as <- <-.
    match goal with
    | H : getMarkupArgs imp api _ = (Ok ?a, _),
      H' : getMarkup imp _ ?s1 = (Ok ?c, ?s2) |- _ =>
        exists ∅, a, c, s1, s2
    end.
    cbv zeta. cbn [ext log]. split; [eassumption|]. split; [eassumption|].
    unfold renders, dispatch_args. rewrite !flat_map_app. simpl.
    rewrite !app_nil_r. split; reflexivity.
  - returned_call E. returned_call E. returned_call E. returned_call E.
    injection E as <- <-.
    match goal with
    | H0 : getAssetsMap imp _ _ _ = (Ok ?m, _),
      H : getMarkupArgs imp api _ = (Ok ?a, _),
      H' : getMarkup imp _ ?s1 = (Ok ?c, ?s2) |- _ =>
        exists m, a, c, s1, s2
    end.
    cbv zeta. cbn [ext log]. split; [eassumption|]. split; [eassumption|].
    unfold renders, dispatch_args. rewrite !flat_map_app. simpl.
    rewrite !app_nil_r. split; reflexivity.
Qed.

End Facts.

(** * The sample project, run *)

(** The journal of the sample run, by call. *)
Example sample_journal :
  map label (log (snd (fn sample.imports sample.project (init []))))
  = [ "logger.info Umi v4.0.0";
      "rimraf.sync /app/src/.umi-production";
      "applyPlugins onCheckPkgJSON";
      "applyPlugins onGenerateFiles";
      "getBabelOpts";
      "applyPlugins modifyEntry";
      "applyPlugins onBeforeCompiler";
      "applyPlugins modifyUniBundlerOpts";
      "applyPlugins modifyUniBundler";
      "bundler.build";
      "measureFileSizesBeforeBuild /app/dist";
      "console.log";
      "logger.info File sizes after gzip:
";
      "printFileSizesAfterBuild /app/dist";
      "getAssetsMap";
      "getMarkupArgs";
      "getMarkup";
      "applyPlugins modifyExportHTMLFiles";
      "mkdirpSync /app/dist";
      "writeFileSync /app/dist/index.html";
      "logger.event Build index.html";
      "applyPlugins onBuildHtmlComplete" ].
Proof. vm_compute. reflexivity. Qed.

(** A document written before a later write fails stays written: the
    second document is refused, the first one is in the journal and in
    the outside world, and nothing is removed afterwards. *)
Example written_documents_remain :
  let run := fn sample.locked_imports sample.second_document (init []) in
  fst run = Err (IOFailure "EACCES")
  /\ map label (skipn 17 (log (snd run)))
     = [ "applyPlugins modifyExportHTMLFiles";
         "mkdirpSync /app/dist";
         "writeFileSync /app/dist/index.html";
         "logger.event Build index.html";
         "mkdirpSync /app/dist";
         "writeFileSync /app/dist/locked.html";
         "throw" ]
  /\ In "write /app/dist/index.html" (ext (snd run)).
Proof. vm_compute. repeat split. do 4 right. left. reflexivity. Qed.

(** At 17.1.0 the options stage of the sample project returns options
    with the automatic runtime. *)
Lemma react_runtime_selection_witness :
  api_react_version sample.project = Some "17.1.0"
  /\ semver.parse "17.1.0" = Some (semver.mkSemVer 17 1 0 [])
  /\ fst (compose_build_options sample.imports sample.project (init []))
     = Ok (sample.opts, val sample.bundler)
  /\ opts_react_runtime sample.opts = automatic.
Proof.
  split; [reflexivity|]. split; [reflexivity|].
  assert (E : compose_build_options sample.imports sample.project (init [])
              = (Ok (sample.opts, val sample.bundler),
                 snd (compose_build_options sample.imports sample.project
                        (init []))))
    by (vm_compute; reflexivity).
  split; [rewrite E; reflexivity|].
  destruct (react_runtime_selection sample.imports sample.project)
    as (Hge & _ & _ & _ & _ & Hstage).
  destruct (Hstage _ _ _ _ E)
    as (auto & babel & entry & s0 & s1 & s2 & Hauto & _ & _ & _ & Hopts).
  rewrite (Hopts eq_refl).
  destruct (Hge "17.1.0" _ eq_refl eq_refl) as [Hok _].
  rewrite Hok in Hauto. injection Hauto as <-. reflexivity.
Defined.

(** In the sample run the snapshot is entry 10 of the journal, right after
    the [bundler.build] entry. *)
Lemma measure_follows_build_witness :
  let j := log (snd (fn sample.imports sample.project (init []))) in
  j = firstn 10 j ++ EMeasureFileSizes "/app/dist" :: skipn 11 j
  /\ (exists opts, In (EBundlerBuild opts) (firstn 10 j))
  /\ (forall opts, ~ In (EBundlerBuild opts) (skipn 11 j)).
Proof.
  intros j.
  assert (H : j = firstn 10 j ++ EMeasureFileSizes "/app/dist" :: skipn 11 j)
    by (vm_compute; reflexivity).
  split; [exact H|].
  exact (measure_follows_build sample.imports sample.project [] _ _ _ H).
Defined.

(** C3, as stated, fails: with nothing registered at all the run throws at
    [bundler.build], having written and reported nothing. *)
Lemma nothing_registered_counterexample :
  let run := fn sample.imports sample.bare (init []) in
  fst run
  = Err (TypeError "Cannot read properties of undefined (reading 'build')")
  /\ writes (log (snd run)) = []
  /\ reports (log (snd run)) = []
  /\ ~ (exists w', run = (Ok tt, w')
                   /\ length (writes (log w')) = 1%nat
                   /\ length (reports (log w')) = 1%nat).
Proof.
  vm_compute. repeat split. intros (w' & E & _). discriminate E.
Qed.

Lemma sample_helpers_total : helpers_total sample.imports sample.project.
Proof.
  unfold helpers_total, total.
  repeat split; intros; do 2 eexists; reflexivity.
Defined.

(** The sample project, whose one plugin supplies the bundler, completes. *)
Lemma single_bundler_plugin_run_witness :
  exists w' o content,
    fn sample.imports sample.project (init []) = (Ok tt, w')
    /\ builds (log w') = [o]
    /\ opts_react_runtime o = automatic
    /\ writes (log w') = [("/app/dist/index.html", content)]
    /\ length (reports (log w')) = 1%nat.
Proof.
  destruct (single_bundler_plugin_run sample.imports sample.project
              sample.supply_bundler sample.bundler []
              eq_refl eq_refl eq_refl eq_refl eq_refl)
    as (w' & o & content & H1 & H2 & H3 & _ & _ & _ & _ & H4 & H5 & _ & _).
  - intros acc args s0. eexists. reflexivity.
  - intros o s0. do 2 eexists. reflexivity.
  - exact sample_helpers_total.
  - exists w', o, content. repeat split; assumption.
Defined.

(** The HTML stage of the sample project. *)
Lemma default_html_document_witness :
  let run := generate_html sample.imports sample.project sample.opts "stats"
               (init []) in
  exists content,
    fst run = Ok [ {| html_path := "index.html"; html_content := content |} ]
    /\ writes (log (snd run)) = [("/app/dist/index.html", content)].
Proof.
  intros run.
  assert (E : generate_html sample.imports sample.project sample.opts "stats"
                (init [])
              = (Ok [ {| html_path := "index.html";
                         html_content := "<html></html>" |} ], snd run))
    by (vm_compute; reflexivity).
  destruct (default_html_document sample.imports sample.project sample.opts
              "stats" (init []) _ _ eq_refl eq_refl E)
    as (assetsMap & args & content & s0 & s1 & s2 & s3
        & Hf & _ & _ & _ & _ & _ & _ & Hw & _).
  exists content. split.
  - unfold run. rewrite E. simpl. rewrite Hf. reflexivity.
  - exact Hw.
Defined.

(** Mapped [a.js] before the supplied [b.js]; supplied [b.css] before the
    mapped [a.css]. *)
Lemma asset_merge_order_witness :
  scripts (finalMarkUpArgs sample.project sample.opts sample.assets
             sample.markup)
  = [Src "a.js"; External "b.js"]
  /\ styles (finalMarkUpArgs sample.project sample.opts sample.assets
               sample.markup)
     = [External "b.css"; Src "a.css"].
Proof.
  destruct (asset_merge_order sample.project sample.opts sample.assets
              sample.markup eq_refl) as [H1 H2].
  split; [rewrite H1 | rewrite H2]; vm_compute; reflexivity.
Defined.

(** The [vite] argument alone switches [esmScript] on. *)
Lemma esmScript_flag_witness :
  config_esm (opts_config sample.opts) = false
  /\ truthy (esmScript (finalMarkUpArgs sample.started_with_vite sample.opts
                          sample.assets sample.markup)) = true.
Proof.
  split; [reflexivity|].
  apply (proj2 (proj2 (esmScript_flag sample.started_with_vite sample.opts
                         sample.assets sample.markup))).
  right. reflexivity.
Defined.


(** C9, as stated, fails: the [files] argument of the dispatch is [null],
    not an empty list. *)
Lemma generate_files_argument_counterexample :
  dispatch_args "onGenerateFiles"
    (log (snd (fn sample.imports sample.project (init []))))
  = [ArgsGenerate {| files := null; isFirstTime := true |}]
  /\ dispatch_args "onGenerateFiles"
       (log (snd (fn sample.imports sample.project (init []))))
     <> [ArgsGenerate {| files := val []; isFirstTime := true |}].
Proof.
  vm_compute. split; [reflexivity|]. intros H. discriminate H.
Qed.

(** * The further properties, on the sample project *)

(** On the [vite] backend the sample run measures and reports nothing. *)
Lemma sizes_skipped_witness :
  config_vite (api_config sample.vite_project) = true
  /\ measures (log (snd (fn sample.imports sample.vite_project (init [])))) = []
  /\ reports (log (snd (fn sample.imports sample.vite_project (init [])))) = [].
Proof.
  split; [reflexivity|].
  apply (sizes_skipped sample.imports sample.vite_project []).
  left. reflexivity.
Defined.

(** The size stage of the sample project. *)
Lemma sizes_reported_witness :
  exists previous s1,
    measureFileSizesBeforeBuild sample.imports "/app/dist" [] = (Ok previous, s1)
    /\ log (snd (measure_sizes sample.imports sample.project sample.opts
                   "stats" (init [])))
       = [ EMeasureFileSizes "/app/dist"; EConsoleLog;
           ELoggerInfo file_sizes_heading;
           EPrintFileSizes "stats" previous "/app/dist" ].
Proof.
  assert (E : measure_sizes sample.imports sample.project sample.opts "stats"
                (init [])
              = (Ok tt, snd (measure_sizes sample.imports sample.project
                               sample.opts "stats" (init []))))
    by (vm_compute; reflexivity).
  destruct (sizes_reported sample.imports sample.project sample.opts "stats"
              (init []) tt _ eq_refl eq_refl E)
    as (previous & s1 & H1 & _ & H3).
  exists previous, s1. split; [exact H1 | exact H3].
Defined.

(** The sample project in multi-page mode returns and writes nothing. *)
Lemma multi_page_mode_emits_nothing_witness :
  config_mpa (api_config sample.mpa_project) = true
  /\ fst (fn sample.imports sample.mpa_project (init [])) = Ok tt
  /\ writes (log (snd (fn sample.imports sample.mpa_project (init [])))) = []
  /\ renders (log (snd (fn sample.imports sample.mpa_project (init [])))) = [].
Proof.
  split; [reflexivity|]. split; [vm_compute; reflexivity|].
  destruct (multi_page_mode_emits_nothing sample.imports sample.mpa_project []
              eq_refl) as (_ & Hr & _ & _ & Hw & _).
  split; [exact Hw | exact Hr].
Defined.

(** On the [vite] backend the sample markup keeps its own styles and
    scripts. *)
Lemma vite_injects_nothing_witness :
  exists final,
    renders (log (snd (collect_html_files sample.imports sample.vite_project
                         sample.opts "stats" (init []))))
    = [final]
    /\ styles final = [External "b.css"]
    /\ scripts final = [External "b.js"].
Proof.
  destruct (vite_injects_nothing sample.imports sample.vite_project sample.opts
              "stats" (init []) eq_refl) as [_ H].
  exact H.
Defined.

(** The options stage of the sample project. *)
Lemma options_flow_witness :
  dispatch_args "modifyUniBundler"
    (log (snd (compose_build_options sample.imports sample.project (init []))))
  = [ArgsUniBundler {| ub_bundler := "webpack"; ub_opts := sample.opts |}].
Proof.
  assert (E : compose_build_options sample.imports sample.project (init [])
              = (Ok (sample.opts, val sample.bundler),
                 snd (compose_build_options sample.imports sample.project
                        (init []))))
    by (vm_compute; reflexivity).
  destruct (options_flow sample.imports sample.project (init []) sample.opts
              (val sample.bundler) _ E)
    as (_ & _ & _ & _ & _ & _ & _ & _ & _ & H).
  exact H.
Defined.

(** With react version [latest] the sample run stops in the options
    stage. *)
Lemma runtime_failure_stops_before_compiler_witness :
  shouldUseAutomaticRuntime sample.unversioned
  = Err (TypeError "Invalid Version: latest")
  /\ dispatch_args "onBeforeCompiler"
       (log (snd (fn sample.imports sample.unversioned (init [])))) = []
  /\ builds (log (snd (fn sample.imports sample.unversioned (init [])))) = [].
Proof.
  split; [reflexivity|].
  destruct (runtime_failure_stops_before_compiler sample.imports
              sample.unversioned [] (TypeError "Invalid Version: latest")
              eq_refl) as (_ & _ & H1 & H2 & _).
  split; [exact H1 | exact H2].
Defined.

(** The sample project builds into [dist]; with [outputPath: undefined] in
    the configuration the bundler's default is taken, although the user
    configuration asks for [out]. *)
Lemma literal_output_folder_witness :
  str_or (config_outputPath (opts_config sample.opts))
    (DEFAULT_OUTPUT_PATH sample.imports)
  = "dist"
  /\ api_userConfig_outputPath sample.unset_output = Some (val "out")
  /\ str_or
       (config_outputPath
          (opts_config
             (compose_opts sample.imports sample.unset_output true
                sample.babel ∅)))
       (DEFAULT_OUTPUT_PATH sample.imports)
     = "dist".
Proof.
  split; [|split; [reflexivity|]].
  - exact (literal_output_folder sample.imports sample.project true
             sample.babel {[ "umi" := "/app/src/.umi-production/umi.ts" ]}).
  - exact (literal_output_folder sample.imports sample.unset_output true
             sample.babel ∅).
Defined.

(** The markup part of the sample HTML stage, with a handler that appends
    a document. *)
Lemma export_handlers_get_rendered_default_witness :
  fst (collect_html_files sample.imports sample.second_document sample.opts
         "stats" (init []))
  = Ok [ {| html_path := "index.html"; html_content := "<html></html>" |};
         {| html_path := "locked.html"; html_content := "<p></p>" |} ]
  /\ length (renders (log (snd (collect_html_files sample.imports
                                  sample.second_document sample.opts "stats"
                                  (init []))))) = 1%nat.
Proof.
  assert (E : collect_html_files sample.imports sample.second_document
                sample.opts "stats" (init [])
              = (Ok [ {| html_path := "index.html";
                         html_content := "<html></html>" |};
                      {| html_path := "locked.html";
                         html_content := "<p></p>" |} ],
                 snd (collect_html_files sample.imports sample.second_document
                        sample.opts "stats" (init []))))
    by (vm_compute; reflexivity).
  destruct (export_handlers_get_rendered_default sample.imports
              sample.second_document sample.opts "stats" (init []) _ _ E)
    as (assetsMap & args & content & s1 & s2 & _ & _ & Hr & _).
  split; [rewrite E; reflexivity|]. rewrite Hr. reflexivity.
Defined.
